(** * Voice-Extraction-SCD: per-segment and per-speaker extraction

    A shallow embedding of the two scripts of the repository,

    - [extract_voices.py]: one output file per diarized segment;
    - [scd_n_files_and_save_all_voices.py]: one output file per speaker,
      merged with whatever is already on disk under the same name,

    and the properties of their aggregation and persistence loops.

    The diarization pipeline, the audio library (slicing, WAV coding) and
    the operating system are collaborators of the scripts: they enter the
    development as variables of a section.  Everything the scripts do
    themselves (the loops, the dictionary of speakers, the file names, the
    exists-then-append logic, the absence of any exception handler) is
    modelled as written.

    The slice of a track enters twice.  In the main embedding it is a
    value, what the library returns for the track: this is the case of
    every track that lies within the audio.  In the module [Raising] the
    slice returns or raises, as pydub's does for tracks far enough out of
    range; the two embeddings agree on every stream whose slices return. *)

From Stdlib Require Import Strings.Byte Strings.Ascii Strings.String QArith Qabs.
From Stdlib Require Import Qround Lqa.
From Stdlib Require Import Sorting.Sorted.
From stdpp Require Import gmap strings list fin_maps pretty.

Local Open Scope string_scope.
Local Open Scope list_scope.

(** ** Python strings and [os.path] *)

Module Py.

(** [s.startswith(prefix)] *)
Fixpoint startswith (s prefix : string) : bool :=
  match prefix, s with
  | "", _ => true
  | String c prefix', String a s' => Ascii.eqb a c && startswith s' prefix'
  | String _ _, "" => false
  end.

(** [s.endswith(suffix)] *)
Definition endswith (s suffix : string) : bool :=
  let n := String.length s in
  let k := String.length suffix in
  (k <=? n)%nat && String.eqb (String.substring (n - k) k s) suffix.

(** [s.rfind(c)] for a one-character [c]: the highest index holding [c],
    or [-1]. *)
Fixpoint rfind_from (c : ascii) (s : string) (i last : Z) : Z :=
  match s with
  | "" => last
  | String a s' => rfind_from c s' (i + 1)%Z (if Ascii.eqb a c then i else last)
  end.

Definition rfind (c : ascii) (s : string) : Z := rfind_from c s 0%Z (-1)%Z.

(** The [while filenameIndex < dotIndex] loop of [genericpath._splitext]:
    [true] when some character in the scanned range is not a dot. *)
Fixpoint splitext_scan (p : string) (filenameIndex n : nat) : bool :=
  match n with
  | O => false
  | S n' =>
      match String.get filenameIndex p with
      | Some "."%char => splitext_scan p (S filenameIndex) n'
      | _ => true
      end
  end.

(** [os.path.splitext(p)] (posixpath). *)
Definition splitext (p : string) : string * string :=
  let sepIndex := rfind "/" p in
  let dotIndex := rfind "." p in
  if (sepIndex <? dotIndex)%Z
     && splitext_scan p (Z.to_nat (sepIndex + 1)) (Z.to_nat (dotIndex - (sepIndex + 1)))
  then (String.substring 0 (Z.to_nat dotIndex) p,
        String.substring (Z.to_nat dotIndex) (String.length p - Z.to_nat dotIndex) p)
  else (p, "").

(** [os.path.join(a, b)] (posixpath, two components). *)
Definition join (a b : string) : string :=
  if startswith b "/" then b
  else if String.eqb a "" || endswith a "/" then a +:+ b
  else a +:+ "/" +:+ b.

(** [str(n)] for a non-negative [int]. *)
Definition str (n : nat) : string := pretty n.

End Py.

(** ** Exceptions, the world and the monad of the scripts *)

(** The exceptions that the modelled operations can raise.  The scripts
    contain no [try]: a raised exception unwinds every loop. *)
Inductive exn : Set :=
| PipelineError       (* whatever the diarization pipeline raises *)
| FileNotFoundError   (* reading or measuring a path that is not there *)
| CouldntDecodeError  (* pydub: the bytes are not WAV audio *)
| OSError             (* the operating system refuses to open a path for writing *)
| KeyError            (* subscript of a dictionary with a missing key *)
| TooManyMissingFrames. (* pydub: a slice that lacks more than 2 ms of frames *)

Inductive outcome (A : Type) : Type :=
| Ok (a : A)
| Raise (e : exn).
Arguments Ok {A} a.
Arguments Raise {A} e.

(** What the scripts can observe and change: the files (a path is a string,
    a file a sequence of bytes), the position of the progress bar, and the
    lines printed. *)
Record World : Type := mkWorld {
  files : gmap string (list byte);
  pbar : nat;
  stdout : list string
}.

Definition set_files (f : gmap string (list byte) → gmap string (list byte)) (w : World) : World :=
  {| files := f (files w); pbar := pbar w; stdout := stdout w |}.

Definition set_pbar (f : nat → nat) (w : World) : World :=
  {| files := files w; pbar := f (pbar w); stdout := stdout w |}.

Definition set_stdout (f : list string → list string) (w : World) : World :=
  {| files := files w; pbar := pbar w; stdout := f (stdout w) |}.

(** A computation reads and changes the world and either returns or raises;
    the world as it was when the exception was raised is kept. *)
Definition M (A : Type) : Type := World → outcome A * World.

Global Instance M_ret : MRet M := λ A a w, (Ok a, w).

Global Instance M_bind : MBind M := λ A B k m w,
  match m w with
  | (Ok a, w') => k a w'
  | (Raise e, w') => (Raise e, w')
  end.

Definition lift {A} (o : outcome A) : M A := λ w, (o, w).

(** [for x in l: body(x)] *)
Fixpoint for_each {A} (l : list A) (body : A → M unit) : M unit :=
  match l with
  | [] => mret tt
  | x :: l' => body x ;; for_each l' body
  end.

(** [for x in l: s = body(s, x)], a loop that updates a local variable. *)
Fixpoint for_fold {A S} (l : list A) (s : S) (body : S → A → M S) : M S :=
  match l with
  | [] => mret s
  | x :: l' => s' ← body s x; for_fold l' s' body
  end.

(** [[f(x) for x in l]] *)
Fixpoint for_list {A B} (l : list A) (f : A → M B) : M (list B) :=
  match l with
  | [] => mret []
  | x :: l' => y ← f x; ys ← for_list l' f; mret (y :: ys)
  end.

(** *** Operating-system calls *)

(** [os.path.exists(path)] *)
Definition path_exists (path : string) : M bool :=
  λ w, (Ok (bool_decide (is_Some (files w !! path))), w).

(** [os.path.getsize(path)] *)
Definition getsize (path : string) : M nat :=
  λ w, match files w !! path with
       | Some raw => (Ok (length raw), w)
       | None => (Raise FileNotFoundError, w)
       end.

(** [pbar.update(1)] *)
Definition pbar_update (n : nat) : M unit :=
  λ w, (Ok tt, set_pbar (λ k, k + n) w).

(** [print(line)] *)
Definition print (line : string) : M unit :=
  λ w, (Ok tt, set_stdout (λ out, out ++ [line]) w).

(** ** Python's [dict], with its insertion order *)

Module Dict.
Section dict.
Context {V : Type}.

(** The entries in insertion order; keys are pairwise distinct. *)
Definition t : Type := list (string * V).

Definition empty : t := [].

(** [d[k]] *)
Fixpoint getitem (k : string) (d : t) : option V :=
  match d with
  | [] => None
  | (k', v) :: d' => if String.eqb k' k then Some v else getitem k d'
  end.

(** [k in d] *)
Definition contains (k : string) (d : t) : bool :=
  match getitem k d with Some _ => true | None => false end.

(** [d[k] = v]: an existing key keeps its place, a new key goes last. *)
Fixpoint setitem (k : string) (v : V) (d : t) : t :=
  match d with
  | [] => [(k, v)]
  | (k', v') :: d' =>
      if String.eqb k' k then (k', v) :: d' else (k', v') :: setitem k v d'
  end.

(** [d.items()] and [d.keys()] *)
Definition items (d : t) : list (string * V) := d.
Definition keys (d : t) : list string := d.*1.
End dict.
Arguments t : clear implicits.
End Dict.

(** [sorted(l, key=...)] on names paired with their keys: ascending and
    stable (elements with equal keys keep their order). *)
Fixpoint insert_by_key (x : string * nat) (l : list (string * nat)) : list (string * nat) :=
  match l with
  | [] => [x]
  | y :: l' => if (x.2 <? y.2)%nat then x :: y :: l' else y :: insert_by_key x l'
  end.

Definition sorted_by_key (l : list (string * nat)) : list string :=
  (foldl (λ acc x, insert_by_key x acc) [] l).*1.

(** A loop over [l] that updates a local variable and touches nothing else;
    its body may raise. *)
Fixpoint fold_outcome {A S} (l : list A) (s : S) (body : S → A → outcome S) : outcome S :=
  match l with
  | [] => Ok s
  | x :: l' =>
      match body s x with
      | Ok s' => fold_outcome l' s' body
      | Raise e => Raise e
      end
  end.

(** The labels of a stream in the order of their first occurrence: each
    label once, at the place where it first appears. *)
Fixpoint first_seen (labels : list string) : list string :=
  match labels with
  | [] => []
  | x :: labels' => x :: filter (λ y, y ≠ x) (first_seen labels')
  end.

(** ** pyannote's diarization output *)

(** [turn.start], [turn.end], over whatever stands for Python's [float]. *)
Record Segment {float : Type} : Type := mkSegment {
  seg_start : float;
  seg_end : float
}.
Arguments Segment : clear implicits.
Arguments mkSegment {float} seg_start seg_end.

(** One item of [diarization.itertracks(yield_label=True)]. *)
Record Track {float : Type} : Type := mkTrack {
  turn : Segment float;
  track_name : string;
  speaker : string
}.
Arguments Track : clear implicits.
Arguments mkTrack {float} turn track_name speaker.

(** A sequence of whole-file writes, applied in order to a file system. *)
Definition write_all (fs : gmap string (list byte)) (writes : list (string * list byte))
    : gmap string (list byte) :=
  foldl (λ fs kv, <[kv.1 := kv.2]> fs) fs writes.

(** ** A reference instance of the collaborators

    Used for the worked examples: audio at one frame per millisecond with
    one byte per frame, times as rationals, a codec that puts a four-byte
    tag in front of the frames, and a file system that accepts every
    write. *)

Module Toy.

(** [x * 1000] *)
Definition fmul (x : Q) (n : Z) : Q := (x * inject_Z n)%Q.

(** [int(x)]: rounding towards zero. *)
Definition int (x : Q) : Z := (Qnum x ÷ Z.pos (Qden x))%Z.

(** pydub's [_parse_position] at one frame per millisecond: a negative
    position counts from the end. *)
Definition parse_position (len : Z) (val : Q) : Z :=
  int (if Qle_bool 0 val then val else (inject_Z len - Qabs val)%Q).

(** [data[i:j]] on a Python sequence. *)
Definition py_slice {A} (data : list A) (i j : Z) : list A :=
  let n := Z.of_nat (length data) in
  let clip k := (if k <? 0 then Z.max (k + n) 0 else Z.min k n)%Z in
  let i := clip i in
  let j := clip j in
  take (Z.to_nat (j - i)) (drop (Z.to_nat i) data).

(** pydub's [audio[a:b]]: both bounds are first cut down to the length
    of the audio, then turned into frame positions.  This is the slice
    when no frame is missing; [getitem] below has the check as well. *)
Definition getslice (audio : list byte) (a b : Q) : list byte :=
  let len := Z.of_nat (length audio) in
  let a := if Qle_bool a (inject_Z len) then a else inject_Z len in
  let b := if Qle_bool b (inject_Z len) then b else inject_Z len in
  py_slice audio (parse_position len a) (parse_position len b).

(** pydub's [AudioSegment.__getitem__] on a slice, whole: after the bytes
    between the two positions are taken, the length that the positions
    ask for is compared with the length that was found.  More than two
    milliseconds of missing frames raise; up to two are filled in with
    silence (the first frame taken, muted, as many times as frames are
    missing). *)
Definition getitem (audio : list byte) (a b : Q) : outcome (list byte) :=
  let len := Z.of_nat (length audio) in
  let a := if Qle_bool a (inject_Z len) then a else inject_Z len in
  let b := if Qle_bool b (inject_Z len) then b else inject_Z len in
  let start := parse_position len a in
  let stop := parse_position len b in
  let data := py_slice audio start stop in
  let missing_frames := (stop - start - Z.of_nat (length data))%Z in
  if (missing_frames =? 0)%Z then Ok data
  else if (2 <? missing_frames)%Z then Raise TooManyMissingFrames
  else
    let silence := (λ _, x00) <$> take 1 data in
    Ok (data ++ mjoin (replicate (Z.to_nat missing_frames) silence)).

Definition tag : list byte := [x52; x49; x46; x46].

Definition encode_wav (audio : list byte) : list byte := tag ++ audio.

Definition decode_wav (raw : list byte) : option (list byte) :=
  match raw with
  | x52 :: x49 :: x46 :: x46 :: audio => Some audio
  | _ => None
  end.

Definition writable (path : string) : bool := true.

(** A pipeline that knows the tracks of some paths and raises on the
    others. *)
Definition pipeline (known : list (string * list (Track Q)))
    (audio_path : string) (fs : gmap string (list byte)) : outcome (list (Track Q)) :=
  match Dict.getitem audio_path known with
  | Some tracks => Ok tracks
  | None => Raise PipelineError
  end.

Definition listdir (names : list string) (path : string)
    (fs : gmap string (list byte)) : list string := names.

Definition track (a b : Q) (label : string) : Track Q :=
  mkTrack (mkSegment a b) "" label.

(** Five milliseconds of audio, and the three turns of two speakers over
    it: A, then B, then A again. *)
Definition audio5 : list byte := [x0a; x0b; x0c; x0d; x0e].

Definition turns5 : list (Track Q) :=
  [track 0 0.002 "A"; track 0.002 0.003 "B"; track 0.003 0.005 "A"].

(** The bounds the data model asks of a segment,
    [0 <= start < end <= duration], with the duration in seconds. *)
Definition in_range (audio : list byte) (t : Track Q) : bool :=
  let duration := (inject_Z (Z.of_nat (length audio)) / 1000)%Q in
  Qle_bool 0 (seg_start (turn t))
  && negb (Qle_bool (seg_end (turn t)) (seg_start (turn t)))
  && Qle_bool (seg_end (turn t)) duration.

Definition world (fs : list (string * list byte)) : World :=
  {| files := list_to_map fs; pbar := 0; stdout := [] |}.

End Toy.

(** ** The two scripts *)

Section Scripts.

(** *** Collaborators *)

(** Python's [float], and the product [x * 1000] of a float and an int. *)
Variable float : Type.
Variable fmul : float → Z → float.

(** pydub's [AudioSegment] is a sequence of frames: [AudioSegment.empty()]
    is the empty sequence and [a + b] is [a] followed by [b]. *)
Variable frame : Type.
Abbreviation AudioSegment := (list frame).

(** [audio[a:b]], pydub's slice between two positions in milliseconds. *)
Variable getslice : AudioSegment → float → float → AudioSegment.

(** The WAV codec behind [export] and [from_wav]. *)
Variable encode_wav : AudioSegment → list byte.
Variable decode_wav : list byte → option AudioSegment.

(** Whether the operating system lets a path be opened for writing.  The
    scripts create no directory once their loops have started, so this
    does not change during a run. *)
Variable writable : string → bool.

(** [pipeline(audio_path)]: reads the file system, returns the tracks in
    emission order or raises. *)
Variable pipeline : string → gmap string (list byte) → outcome (list (Track float)).

(** [os.listdir(path)] *)
Variable listdir : string → gmap string (list byte) → list string.

Definition run_pipeline (audio_path : string) : M (list (Track float)) :=
  λ w, (pipeline audio_path (files w), w).

Definition os_listdir (path : string) : M (list string) :=
  λ w, (Ok (listdir path (files w)), w).

(** [AudioSegment.from_wav(path)] *)
Definition from_wav (path : string) : M AudioSegment :=
  λ w, match files w !! path with
       | None => (Raise FileNotFoundError, w)
       | Some raw =>
           match decode_wav raw with
           | Some audio => (Ok audio, w)
           | None => (Raise CouldntDecodeError, w)
           end
       end.

(** [segment.export(path, format="wav")]: the path is opened for writing
    (which truncates it) and receives the encoded segment. *)
Definition export (segment : AudioSegment) (path : string) : M unit :=
  λ w, if writable path
       then (Ok tt, set_files (<[path := encode_wav segment]>) w)
       else (Raise OSError, w).

(** [with tqdm(total=..., desc=...) as pbar]: a new bar at zero. *)
Definition tqdm_open : M unit := λ w, (Ok tt, set_pbar (λ _, 0) w).

(** [audio[turn.start * 1000: turn.end * 1000]] *)
Definition slice_of (audio : AudioSegment) (t : Track float) : AudioSegment :=
  getslice audio (fmul (seg_start (turn t)) 1000) (fmul (seg_end (turn t)) 1000).

(** *** [extract_voices.py] *)

(** The path of line 108:
    [os.path.join(output_folder_path,
       f"{base_filename}_speaker_{speaker}_segment_{segment_count}.wav")] *)
Definition segment_file (output_folder_path base_filename speaker : string)
    (segment_count : nat) : string :=
  Py.join output_folder_path
    (base_filename +:+ "_speaker_" +:+ speaker +:+ "_segment_"
       +:+ Py.str segment_count +:+ ".wav").

(** Lines 106-110: the body of the loop over the tracks of one file;
    returns the new value of [segment_count]. *)
Definition export_segment (output_folder_path base_filename : string)
    (audio : AudioSegment) (segment_count : nat) (t : Track float) : M nat :=
  let segment := slice_of audio t in
  let speaker_file :=
    segment_file output_folder_path base_filename (speaker t) segment_count in
  export segment speaker_file ;;
  mret (segment_count + 1).

(** Lines 104-110: the loop over the tracks of one file, with its counter
    started at zero; returns the final [segment_count]. *)
Definition export_segments (output_folder_path base_filename : string)
    (audio : AudioSegment) (tracks : list (Track float)) : M nat :=
  for_fold tracks 0 (export_segment output_folder_path base_filename audio).

(** Lines 93-113: the body of the loop over the input files. *)
Definition extract_file (input_folder_path output_folder_path audio_file : string) : M unit :=
  let audio_path := Py.join input_folder_path audio_file in
  diarization ← run_pipeline audio_path;
  audio ← from_wav audio_path;
  let base_filename := (Py.splitext audio_file).1 in
  export_segments output_folder_path base_filename audio diarization ;;
  pbar_update 1.

(** Lines 74-115.  Directories are not part of the model, so the creation
    of the output folder (lines 83-84) leaves the world as it is. *)
Definition extract_voices (input_folder_path output_folder_path : string) : M unit :=
  names ← os_listdir input_folder_path;
  let wavs := filter (λ f, Is_true (Py.endswith f ".wav")) names in
  sizes ← for_list wavs (λ f, getsize (Py.join input_folder_path f));
  let audio_files := sorted_by_key (zip wavs sizes) in
  tqdm_open ;;
  for_each audio_files (extract_file input_folder_path output_folder_path) ;;
  print "Voice separation from audio files completed successfully.".

(** *** [scd_n_files_and_save_all_voices.py] *)

(** Lines 50-55: the body of the grouping loop.  [d[speaker] += segment]
    reads [d[speaker]], adds and stores the sum back. *)
Definition accumulate (audio : AudioSegment) (speaker_segments : Dict.t AudioSegment)
    (t : Track float) : outcome (Dict.t AudioSegment) :=
  let speaker_segments :=
    if negb (Dict.contains (speaker t) speaker_segments)
    then Dict.setitem (speaker t) [] speaker_segments
    else speaker_segments in
  let segment := slice_of audio t in
  match Dict.getitem (speaker t) speaker_segments with
  | Some buffer => Ok (Dict.setitem (speaker t) (buffer ++ segment) speaker_segments)
  | None => Raise KeyError
  end.

(** Lines 45-55: [speaker_segments] after the loop over the tracks. *)
Definition group_by_speaker (audio : AudioSegment) (tracks : list (Track float))
    : outcome (Dict.t AudioSegment) :=
  fold_outcome tracks Dict.empty (accumulate audio).

(** The path of line 60:
    [os.path.join(output_folder_path, f"{base_filename}_speaker_{speaker}.wav")] *)
Definition speaker_file (output_folder_path base_filename speaker : string) : string :=
  Py.join output_folder_path (base_filename +:+ "_speaker_" +:+ speaker +:+ ".wav").

(** Lines 60-69: the body of the saving loop, for one item of the
    dictionary. *)
Definition save_speaker (output_folder_path base_filename : string)
    (item : string * AudioSegment) : M unit :=
  let '(speaker, audio_segment) := item in
  let speaker_file := speaker_file output_folder_path base_filename speaker in
  present ← path_exists speaker_file;
  if negb present
  then export audio_segment speaker_file
  else
    existing_audio ← from_wav speaker_file;
    let combined_audio := existing_audio ++ audio_segment in
    export combined_audio speaker_file.

(** Lines 59-69: the saving loop. *)
Definition save_speakers (output_folder_path base_filename : string)
    (speaker_segments : Dict.t AudioSegment) : M unit :=
  for_each (Dict.items speaker_segments) (save_speaker output_folder_path base_filename).

(** Lines 37-72: the body of the loop over the input files. *)
Definition merge_file (input_folder_path output_folder_path audio_file : string) : M unit :=
  let audio_path := Py.join input_folder_path audio_file in
  diarization ← run_pipeline audio_path;
  audio ← from_wav audio_path;
  speaker_segments ← lift (group_by_speaker audio diarization);
  let base_filename := (Py.splitext audio_file).1 in
  save_speakers output_folder_path base_filename speaker_segments ;;
  pbar_update 1.

(** Lines 27-74, the whole script; [input_folder_path] and
    [output_folder_path] are its two settings (lines 24-25).  As above,
    the creation of the output folder leaves the world as it is. *)
Definition scd_n_files_and_save_all_voices (input_folder_path output_folder_path : string)
    : M unit :=
  names ← os_listdir input_folder_path;
  let audio_files := filter (λ f, Is_true (Py.endswith f ".wav")) names in
  tqdm_open ;;
  for_each audio_files (merge_file input_folder_path output_folder_path) ;;
  print "Processing complete.".

(** The slices of the tracks of one speaker, in emission order, end to
    end. *)
Definition speaker_audio (audio : AudioSegment) (tracks : list (Track float))
    (label : string) : AudioSegment :=
  concat (slice_of audio <$> filter (λ t, speaker t = label) tracks).

(** The files that the per-segment loop is to leave for the tracks of one
    file, in emission order, when its counter starts at [n0]. *)
Definition segment_writes (output_folder_path base_filename : string)
    (audio : AudioSegment) (tracks : list (Track float)) (n0 : nat)
    : list (string * list byte) :=
  imap (λ i t, (segment_file output_folder_path base_filename (speaker t) (n0 + i),
                encode_wav (slice_of audio t))) tracks.

(** The audio that the saving loop finds at a path: what the file there
    decodes to, nothing when there is no file. *)
Definition audio_at (fs : gmap string (list byte)) (path : string) : AudioSegment :=
  match fs !! path with
  | Some raw => default [] (decode_wav raw)
  | None => []
  end.

(** The files that the saving loop is to leave for the items of a
    dictionary, in the order of the items, over the file system [fs]. *)
Definition speaker_writes (output_folder_path base_filename : string)
    (fs : gmap string (list byte)) (speaker_segments : Dict.t AudioSegment)
    : list (string * list byte) :=
  (λ item, (speaker_file output_folder_path base_filename item.1,
            encode_wav (audio_at fs (speaker_file output_folder_path base_filename item.1)
                        ++ item.2))) <$> Dict.items speaker_segments.

End Scripts.

Arguments audio_at {frame} decode_wav fs path.
Arguments speaker_writes {frame} encode_wav decode_wav
  output_folder_path base_filename fs speaker_segments.
Arguments slice_of {float} fmul {frame} getslice audio t.
Arguments speaker_audio {float} fmul {frame} getslice audio tracks label.
Arguments accumulate {float} fmul {frame} getslice audio speaker_segments t.
Arguments group_by_speaker {float} fmul {frame} getslice audio tracks.
Arguments run_pipeline {float} pipeline audio_path _.
Arguments from_wav {frame} decode_wav path _.
Arguments export {frame} encode_wav writable segment path _.
Arguments export_segment {float} fmul {frame} getslice encode_wav writable
  output_folder_path base_filename audio segment_count t _.
Arguments export_segments {float} fmul {frame} getslice encode_wav writable
  output_folder_path base_filename audio tracks _.
Arguments segment_writes {float} fmul {frame} getslice encode_wav
  output_folder_path base_filename audio tracks n0.
Arguments save_speaker {frame} encode_wav decode_wav writable
  output_folder_path base_filename item _.
Arguments save_speakers {frame} encode_wav decode_wav writable
  output_folder_path base_filename speaker_segments _.
Arguments merge_file {float} fmul {frame} getslice encode_wav decode_wav writable
  pipeline input_folder_path output_folder_path audio_file _.
Arguments extract_file {float} fmul {frame} getslice encode_wav decode_wav writable
  pipeline input_folder_path output_folder_path audio_file _.
Arguments scd_n_files_and_save_all_voices {float} fmul {frame} getslice encode_wav
  decode_wav writable pipeline listdir input_folder_path output_folder_path _.
Arguments extract_voices {float} fmul {frame} getslice encode_wav
  decode_wav writable pipeline listdir input_folder_path output_folder_path _.

(** ** The loops with the slice as the audio library has it

    Above, the slice of a track is a value: [getslice] is what pydub's
    [audio[a:b]] returns.  It returns for every track that lies within the
    audio, and for many that do not; but it raises when frames are missing
    for more than two milliseconds, as they are when the start of a track
    lies further before zero than the audio is long.  Here the same lines
    are embedded with a slice that returns or raises.  The two embeddings
    give the same result on every stream whose slices all return
    ([group_by_speaker_returning], [export_segments_returning]). *)

Module Raising.
Section Loops.

Variable float : Type.
Variable fmul : float → Z → float.
Variable frame : Type.
Abbreviation AudioSegment := (list frame).

(** [audio[a:b]], pydub's [__getitem__] on a slice: returns or raises. *)
Variable getitem : AudioSegment → float → float → outcome AudioSegment.

Variable encode_wav : AudioSegment → list byte.
Variable decode_wav : list byte → option AudioSegment.
Variable writable : string → bool.
Variable pipeline : string → gmap string (list byte) → outcome (list (Track float)).

(** [audio[turn.start * 1000: turn.end * 1000]] *)
Definition slice_of (audio : AudioSegment) (t : Track float) : outcome AudioSegment :=
  getitem audio (fmul (seg_start (turn t)) 1000) (fmul (seg_end (turn t)) 1000).

(** [extract_voices.py], lines 106-110. *)
Definition export_segment (output_folder_path base_filename : string)
    (audio : AudioSegment) (segment_count : nat) (t : Track float) : M nat :=
  segment ← lift (slice_of audio t);
  let speaker_file :=
    segment_file output_folder_path base_filename (speaker t) segment_count in
  export encode_wav writable segment speaker_file ;;
  mret (segment_count + 1).

(** [extract_voices.py], lines 104-110. *)
Definition export_segments (output_folder_path base_filename : string)
    (audio : AudioSegment) (tracks : list (Track float)) : M nat :=
  for_fold tracks 0 (export_segment output_folder_path base_filename audio).

(** [extract_voices.py], lines 93-113. *)
Definition extract_file (input_folder_path output_folder_path audio_file : string) : M unit :=
  let audio_path := Py.join input_folder_path audio_file in
  diarization ← run_pipeline pipeline audio_path;
  audio ← from_wav decode_wav audio_path;
  let base_filename := (Py.splitext audio_file).1 in
  export_segments output_folder_path base_filename audio diarization ;;
  pbar_update 1.

(** [scd_n_files_and_save_all_voices.py], lines 50-55: the key is made
    present first, then the slice is taken, then the buffer is read,
    added to and stored back. *)
Definition accumulate (audio : AudioSegment) (speaker_segments : Dict.t AudioSegment)
    (t : Track float) : outcome (Dict.t AudioSegment) :=
  let speaker_segments :=
    if negb (Dict.contains (speaker t) speaker_segments)
    then Dict.setitem (speaker t) [] speaker_segments
    else speaker_segments in
  match slice_of audio t with
  | Raise e => Raise e
  | Ok segment =>
      match Dict.getitem (speaker t) speaker_segments with
      | Some buffer => Ok (Dict.setitem (speaker t) (buffer ++ segment) speaker_segments)
      | None => Raise KeyError
      end
  end.

(** [scd_n_files_and_save_all_voices.py], lines 45-55. *)
Definition group_by_speaker (audio : AudioSegment) (tracks : list (Track float))
    : outcome (Dict.t AudioSegment) :=
  fold_outcome tracks Dict.empty (accumulate audio).

(** [scd_n_files_and_save_all_voices.py], lines 37-72. *)
Definition merge_file (input_folder_path output_folder_path audio_file : string) : M unit :=
  let audio_path := Py.join input_folder_path audio_file in
  diarization ← run_pipeline pipeline audio_path;
  audio ← from_wav decode_wav audio_path;
  speaker_segments ← lift (group_by_speaker audio diarization);
  let base_filename := (Py.splitext audio_file).1 in
  save_speakers encode_wav decode_wav writable
    output_folder_path base_filename speaker_segments ;;
  pbar_update 1.

End Loops.

Arguments slice_of {float} fmul {frame} getitem audio t.
Arguments export_segment {float} fmul {frame} getitem encode_wav writable
  output_folder_path base_filename audio segment_count t _.
Arguments export_segments {float} fmul {frame} getitem encode_wav writable
  output_folder_path base_filename audio tracks _.
Arguments extract_file {float} fmul {frame} getitem encode_wav decode_wav writable
  pipeline input_folder_path output_folder_path audio_file _.
Arguments accumulate {float} fmul {frame} getitem audio speaker_segments t.
Arguments group_by_speaker {float} fmul {frame} getitem audio tracks.
Arguments merge_file {float} fmul {frame} getitem encode_wav decode_wav writable
  pipeline input_folder_path output_folder_path audio_file _.

End Raising.

(** The scripts at the reference instance. *)
Abbreviation toy_group := (group_by_speaker Toy.fmul Toy.getslice).
Abbreviation toy_export_segments :=
  (export_segments Toy.fmul Toy.getslice Toy.encode_wav Toy.writable).
Abbreviation toy_save_speaker :=
  (save_speaker Toy.encode_wav Toy.decode_wav Toy.writable).
Abbreviation toy_save_speakers :=
  (save_speakers Toy.encode_wav Toy.decode_wav Toy.writable).
Abbreviation toy_merge_file known :=
  (merge_file Toy.fmul Toy.getslice Toy.encode_wav Toy.decode_wav Toy.writable
     (Toy.pipeline known)).
Abbreviation toy_scd known names :=
  (scd_n_files_and_save_all_voices Toy.fmul Toy.getslice Toy.encode_wav
     Toy.decode_wav Toy.writable (Toy.pipeline known) (Toy.listdir names)).
Abbreviation toy_extract_voices known names :=
  (extract_voices Toy.fmul Toy.getslice Toy.encode_wav
     Toy.decode_wav Toy.writable (Toy.pipeline known) (Toy.listdir names)).

(** ** General facts *)

(** *** The dictionary *)

Lemma getitem_setitem_eq {V} (k : string) (v : V) (d : Dict.t V) :
  Dict.getitem k (Dict.setitem k v d) = Some v.
Proof.
  induction d as [|[k' v'] d IH]; simpl.
  - by rewrite String.eqb_refl.
  - destruct (String.eqb k' k) eqn:E; simpl; rewrite E; done.
Qed.

Lemma getitem_setitem_ne {V} (k k' : string) (v : V) (d : Dict.t V) :
  k ≠ k' → Dict.getitem k' (Dict.setitem k v d) = Dict.getitem k' d.
Proof.
  intros Hne. induction d as [|[k0 v0] d IH]; simpl.
  - destruct (String.eqb k k') eqn:E; [|done].
    by apply String.eqb_eq in E.
  - destruct (String.eqb k0 k) eqn:E; simpl; [|by rewrite IH].
    apply String.eqb_eq in E as ->.
    destruct (String.eqb k k') eqn:E'; [|done].
    by apply String.eqb_eq in E'.
Qed.

Lemma getitem_None_keys {V} (k : string) (d : Dict.t V) :
  Dict.getitem k d = None ↔ k ∉ Dict.keys d.
Proof.
  unfold Dict.keys. induction d as [|[k' v'] d IH]; csimpl.
  - split; [intros _; apply not_elem_of_nil|done].
  - rewrite not_elem_of_cons. destruct (String.eqb k' k) eqn:E.
    + apply String.eqb_eq in E as ->. split; [done|]. by intros [? _].
    + apply String.eqb_neq in E. rewrite IH. intuition congruence.
Qed.

Lemma contains_keys {V} (k : string) (d : Dict.t V) :
  Dict.contains k d = true ↔ k ∈ Dict.keys d.
Proof.
  unfold Dict.contains. destruct (Dict.getitem k d) eqn:E.
  - split; [intros _|done].
    destruct (decide (k ∈ Dict.keys d)) as [|Hn]; [done|].
    apply getitem_None_keys in Hn. congruence.
  - apply getitem_None_keys in E. split; [done|]. intros; contradiction.
Qed.

Lemma keys_setitem {V} (k : string) (v : V) (d : Dict.t V) :
  Dict.keys (Dict.setitem k v d)
  = if Dict.contains k d then Dict.keys d else Dict.keys d ++ [k].
Proof.
  unfold Dict.keys, Dict.contains. induction d as [|[k' v'] d IH]; csimpl; [done|].
  destruct (String.eqb k' k) eqn:E; csimpl; [done|].
  rewrite IH. by destruct (Dict.getitem k d).
Qed.

(** *** First-seen order *)

Lemma elem_of_first_seen (x : string) (labels : list string) :
  x ∈ first_seen labels ↔ x ∈ labels.
Proof.
  induction labels as [|y labels IH]; simpl; [done|].
  rewrite !elem_of_cons, list_elem_of_filter, IH.
  destruct (decide (x = y)); intuition.
Qed.

Lemma NoDup_first_seen (labels : list string) : NoDup (first_seen labels).
Proof.
  induction labels as [|y labels IH]; simpl; [constructor|].
  constructor; [|by apply NoDup_filter].
  rewrite list_elem_of_filter. by intros [? _].
Qed.

Lemma filter_all {A} (P : A → Prop) `{!∀ x, Decision (P x)} (l : list A) :
  (∀ x, x ∈ l → P x) → filter P l = l.
Proof.
  induction l as [|y l IH]; intros HP; [done|].
  rewrite filter_cons_True by (apply HP, elem_of_cons; by left).
  rewrite IH; [done|]. intros x Hx. apply HP, elem_of_cons. by right.
Qed.

(** A label met again changes nothing; a label met for the first time
    goes to the end. *)
Lemma first_seen_snoc (labels : list string) (x : string) :
  first_seen (labels ++ [x])
  = if decide (x ∈ labels) then first_seen labels else first_seen labels ++ [x].
Proof.
  induction labels as [|y labels IH]; simpl; [done|].
  rewrite IH. destruct (decide (x = y)) as [->|Hne].
  - rewrite (decide_True (P := y ∈ y :: labels)) by (apply elem_of_cons; by left).
    destruct (decide (y ∈ labels)); [done|].
    rewrite filter_app.
    rewrite (filter_cons_False _ y []) by (intros H; by apply H).
    by rewrite app_nil_r.
  - destruct (decide (x ∈ labels)) as [Hin|Hnin].
    + by rewrite (decide_True (P := x ∈ y :: labels)) by (apply elem_of_cons; by right).
    + rewrite (decide_False (P := x ∈ y :: labels))
        by (rewrite elem_of_cons; intuition).
      rewrite filter_app. by rewrite (filter_cons_True _ x []) by done.
Qed.

(** *** Strings and paths *)

Lemma chars_app (a b : string) :
  list_ascii_of_string (a +:+ b) = list_ascii_of_string a ++ list_ascii_of_string b.
Proof. induction a as [|c a IH]; simpl; [done|by rewrite IH]. Qed.

Lemma chars_inj (a b : string) :
  list_ascii_of_string a = list_ascii_of_string b → a = b.
Proof.
  intros H. rewrite <- (string_of_list_ascii_of_string a), H.
  apply string_of_list_ascii_of_string.
Qed.

Lemma string_app_inj_l (s a b : string) : s +:+ a = s +:+ b → a = b.
Proof. induction s as [|c s IH]; simpl; [done|]. intros [= H]. auto. Qed.

Lemma string_app_inj_r (a b s : string) : a +:+ s = b +:+ s → a = b.
Proof.
  intros H%(f_equal list_ascii_of_string). rewrite !chars_app in H.
  apply app_inv_tail in H. by apply chars_inj.
Qed.

(** Two lists cut at the last occurrence of [c] are equal only piece by
    piece. *)
Lemma split_at_last {A} (c : A) (l1 l2 d1 d2 : list A) :
  c ∉ d1 → c ∉ d2 → l1 ++ c :: d1 = l2 ++ c :: d2 → l1 = l2 ∧ d1 = d2.
Proof.
  intros H1 H2. revert l2. induction l1 as [|x l1 IH]; intros [|y l2]; simpl.
  - by intros [= ->].
  - intros [= -> ->]. destruct H1. apply elem_of_app. right. by left.
  - intros [= -> <-]. destruct H2. apply elem_of_app. right. by left.
  - intros [= -> H]. destruct (IH _ H) as [-> ->]. done.
Qed.

Lemma pretty_N_go_no_underscore (x : N) (s : string) :
  "_"%char ∉ list_ascii_of_string s →
  "_"%char ∉ list_ascii_of_string (pretty_N_go x s).
Proof.
  revert s. induction (N.lt_wf_0 x) as [x _ IH]; intros s Hs.
  assert (x = 0 ∨ 0 < x)%N as [->|Hpos] by lia.
  - by rewrite pretty_N_go_0.
  - rewrite pretty_N_go_step by done. apply IH.
    { by apply N.div_lt. }
    simpl. rewrite not_elem_of_cons. split; [|done].
    unfold pretty_N_char. by repeat case_match.
Qed.

(** The decimal digits of a number hold no underscore. *)
Lemma str_no_underscore (n : nat) : "_"%char ∉ list_ascii_of_string (Py.str n).
Proof.
  unfold Py.str, pretty, pretty_nat, pretty, pretty_N.
  case_decide.
  - simpl. rewrite not_elem_of_cons. split; [done|apply not_elem_of_nil].
  - apply pretty_N_go_no_underscore. simpl. apply not_elem_of_nil.
Qed.

Lemma str_inj (n m : nat) : Py.str n = Py.str m → n = m.
Proof. unfold Py.str. apply pretty_nat_inj. Qed.

(** [os.path.join] with a fixed first component keeps names apart, as
    long as the names agree on whether they are absolute. *)
Lemma join_inj (a x y : string) :
  Py.startswith x "/" = Py.startswith y "/" →
  Py.join a x = Py.join a y → x = y.
Proof.
  unfold Py.join. intros ->. destruct (Py.startswith y "/"); [done|].
  destruct (String.eqb a "" || Py.endswith a "/").
  - apply string_app_inj_l.
  - intros H%string_app_inj_l. by apply (string_app_inj_l "/").
Qed.

Lemma startswith_empty (s : string) : Py.startswith s "" = true.
Proof. by destruct s. Qed.

Lemma startswith_base (base r1 r2 : string) :
  Py.startswith (base +:+ "_speaker_" +:+ r1) "/"
  = Py.startswith (base +:+ "_speaker_" +:+ r2) "/".
Proof.
  destruct base as [|c base]; simpl; [done|]. by rewrite !startswith_empty.
Qed.

(** For one output folder and one base name, the file name of line 60
    tells the speaker labels apart. *)
Lemma speaker_file_inj (out base s1 s2 : string) :
  speaker_file out base s1 = speaker_file out base s2 → s1 = s2.
Proof.
  unfold speaker_file. intros H%join_inj; [|apply startswith_base].
  apply string_app_inj_l, (string_app_inj_l "_speaker_") in H.
  by apply string_app_inj_r in H.
Qed.

(** For one output folder and one base name, the file name of line 108
    tells the pairs of a speaker label and a count apart. *)
Lemma segment_file_inj (out base s1 s2 : string) (n1 n2 : nat) :
  segment_file out base s1 n1 = segment_file out base s2 n2 → s1 = s2 ∧ n1 = n2.
Proof.
  unfold segment_file. intros H%join_inj; [|apply startswith_base].
  apply string_app_inj_l, (string_app_inj_l "_speaker_") in H.
  apply (f_equal list_ascii_of_string) in H.
  rewrite !chars_app in H.
  assert (∀ s d, list_ascii_of_string s ++ list_ascii_of_string "_segment_" ++ d
                 = (list_ascii_of_string s ++ list_ascii_of_string "_segment")
                   ++ "_"%char :: d) as Hcut.
  { intros s d. by rewrite <- app_assoc. }
  rewrite !Hcut in H.
  assert (∀ n, "_"%char ∉ list_ascii_of_string (Py.str n) ++ list_ascii_of_string ".wav")
    as Hdigits.
  { intros n. rewrite not_elem_of_app. split; [apply str_no_underscore|].
    simpl. repeat (rewrite not_elem_of_cons; split; [done|]). apply not_elem_of_nil. }
  apply split_at_last in H as [H1 H2]; [|apply Hdigits..].
  apply app_inv_tail, chars_inj in H1.
  apply app_inv_tail, chars_inj, str_inj in H2. done.
Qed.

(** *** [os.path.splitext] on the names the scripts keep *)

Lemma rfind_from_app (c : ascii) (s1 s2 : string) (i last : Z) :
  Py.rfind_from c (s1 +:+ s2) i last
  = Py.rfind_from c s2 (i + Z.of_nat (String.length s1))%Z (Py.rfind_from c s1 i last).
Proof.
  revert i last. induction s1 as [|a s1 IH]; intros i last; simpl.
  - f_equal. lia.
  - rewrite IH. f_equal. lia.
Qed.

Lemma rfind_from_absent (c : ascii) (s : string) (i last : Z) :
  c ∉ list_ascii_of_string s → Py.rfind_from c s i last = last.
Proof.
  revert i last. induction s as [|a s IH]; intros i last; simpl; [done|].
  rewrite not_elem_of_cons. intros [Hne Hs]. rewrite IH by done.
  destruct (Ascii.eqb a c) eqn:E; [|done].
  apply Ascii.eqb_eq in E. by destruct Hne.
Qed.

Lemma substring_app_l (a b : string) :
  String.substring 0 (String.length a) (a +:+ b) = a.
Proof.
  induction a as [|c a IH]; simpl; [by destruct b|]. by rewrite IH.
Qed.

Lemma substring_whole (b : string) : String.substring 0 (String.length b) b = b.
Proof. induction b as [|c b IH]; simpl; [done|]. by rewrite IH. Qed.

Lemma substring_app_r (a b : string) :
  String.substring (String.length a) (String.length b) (a +:+ b) = b.
Proof. induction a as [|c a IH]; simpl; [apply substring_whole|done]. Qed.

Lemma string_length_app (a b : string) :
  String.length (a +:+ b) = String.length a + String.length b.
Proof. induction a as [|c a IH]; simpl; [done|]. by rewrite IH. Qed.

(** A name [stem.wav] whose stem has no slash and does not begin with a
    dot is split into its stem and [.wav]. *)
Lemma splitext_wav (c : ascii) (stem : string) :
  c ≠ "."%char →
  "/"%char ∉ list_ascii_of_string (String c stem) →
  Py.splitext (String c stem +:+ ".wav") = (String c stem, ".wav").
Proof.
  intros Hdot Hslash. unfold Py.splitext, Py.rfind.
  rewrite !rfind_from_app.
  rewrite (rfind_from_absent "/" (String c stem)) by done.
  change (Py.rfind_from "/" ".wav" _ (-1)) with (-1)%Z.
  set (n := String.length (String c stem)).
  assert (∀ last, Py.rfind_from "." ".wav" (0 + Z.of_nat n) last = Z.of_nat n) as ->.
  { intros last. simpl. lia. }
  assert ((-1 <? Z.of_nat n)%Z = true) as -> by (apply Z.ltb_lt; lia).
  replace (Z.to_nat (-1 + 1)) with 0 by lia.
  replace (Z.to_nat (Z.of_nat n - (-1 + 1))) with n by lia.
  assert (Py.splitext_scan (String c stem +:+ ".wav") 0 n = true) as ->.
  { unfold n. simpl.
    destruct c as [[] [] [] [] [] [] [] []]; try done. }
  rewrite Nat2Z.id. simpl andb. cbv iota.
  rewrite string_length_app. subst n.
  replace (String.length (String c stem) + String.length ".wav"
           - String.length (String c stem)) with (String.length ".wav") by lia.
  by rewrite substring_app_l, substring_app_r.
Qed.

(** *** Running computations *)

Lemma bind_Ok {A B} (m : M A) (k : A → M B) (w w' : World) (a : A) :
  m w = (Ok a, w') → (m ≫= k) w = k a w'.
Proof. intros H. unfold mbind, M_bind. by rewrite H. Qed.

Lemma bind_Raise {A B} (m : M A) (k : A → M B) (w w' : World) (e : exn) :
  m w = (Raise e, w') → (m ≫= k) w = (Raise e, w').
Proof. intros H. unfold mbind, M_bind. by rewrite H. Qed.

Lemma for_each_app {A} (l1 l2 : list A) (body : A → M unit) (w : World) :
  for_each (l1 ++ l2) body w
  = match for_each l1 body w with
    | (Ok _, w') => for_each l2 body w'
    | (Raise e, w') => (Raise e, w')
    end.
Proof.
  revert w. induction l1 as [|x l1 IH]; intros w; simpl; [done|].
  unfold mbind, M_bind. destruct (body x w) as [[[]|e] w1]; [apply IH|done].
Qed.

Lemma for_each_cons {A} (x : A) (l : list A) (body : A → M unit) (w : World) :
  for_each (x :: l) body w
  = match body x w with
    | (Ok _, w') => for_each l body w'
    | (Raise e, w') => (Raise e, w')
    end.
Proof. done. Qed.

(** No handler anywhere: when the body raises on one element, the loop
    ends there with that exception and in that world. *)
Lemma for_each_raise {A} (l1 l2 : list A) (x : A) (body : A → M unit)
    (w w1 w2 : World) (e : exn) :
  for_each l1 body w = (Ok tt, w1) →
  body x w1 = (Raise e, w2) →
  for_each (l1 ++ x :: l2) body w = (Raise e, w2).
Proof.
  intros H1 H2. rewrite for_each_app, H1. simpl. by apply bind_Raise.
Qed.

(** *** Sequences of writes *)

Lemma write_all_snoc fs writes (k : string) (v : list byte) :
  write_all fs (writes ++ [(k, v)]) = <[k := v]> (write_all fs writes).
Proof. unfold write_all. by rewrite foldl_app. Qed.

Lemma lookup_write_all_other fs writes (p : string) :
  p ∉ writes.*1 → write_all fs writes !! p = fs !! p.
Proof.
  induction writes as [|[k v] writes IH] using rev_ind; [done|].
  rewrite fmap_app, not_elem_of_app. csimpl. rewrite not_elem_of_cons.
  intros [Hp [Hk _]]. rewrite write_all_snoc, lookup_insert_ne by done. auto.
Qed.

Lemma lookup_write_all_NoDup fs writes (i : nat) (k : string) (v : list byte) :
  NoDup writes.*1 → writes !! i = Some (k, v) → write_all fs writes !! k = Some v.
Proof.
  revert i. induction writes as [|[k' v'] writes IH] using rev_ind; intros i; [done|].
  rewrite fmap_app. csimpl. intros [Hnd [Hnin _]]%NoDup_app Hi.
  rewrite write_all_snoc.
  destruct (decide (i < length writes)) as [Hlt|Hge].
  - rewrite lookup_app_l in Hi by done.
    assert (k ∈ writes.*1) as Hin.
    { apply list_elem_of_fmap. exists (k, v). split; [done|].
      by eapply list_elem_of_lookup_2. }
    rewrite lookup_insert_ne.
    + by eapply IH.
    + intros ->. apply (Hnin k); [done|]. by left.
  - rewrite lookup_app_r in Hi by lia.
    destruct (i - length writes) as [|j]; simpl in Hi; [|done].
    injection Hi as -> ->. apply lookup_insert_eq.
Qed.

(** Writing the same sequence a second time changes nothing. *)
Lemma write_all_twice fs writes :
  NoDup writes.*1 → write_all (write_all fs writes) writes = write_all fs writes.
Proof.
  intros Hnd. apply map_eq. intros p.
  destruct (decide (p ∈ writes.*1)) as [Hin|Hnin].
  - apply list_elem_of_fmap in Hin as ([k v] & -> & Hkv).
    apply list_elem_of_lookup in Hkv as [i Hi]. simpl.
    by rewrite !(lookup_write_all_NoDup _ writes i k v).
  - by rewrite lookup_write_all_other.
Qed.

Lemma set_files_id (w : World) : set_files (λ fs, fs) w = w.
Proof. by destruct w. Qed.

(** ** Properties of the scripts *)

Section Properties.

Set Default Proof Using "Type".

Context {float : Type} (fmul : float → Z → float).
Context {frame : Type} (getslice : list frame → float → float → list frame).
Context (encode_wav : list frame → list byte).
Context (decode_wav : list byte → option (list frame)).
Context (writable : string → bool).
Context (pipeline : string → gmap string (list byte) → outcome (list (Track float))).
Context (listdir : string → gmap string (list byte) → list string).

Local Abbreviation AudioSegment := (list frame).
Local Abbreviation slice_of := (slice_of fmul getslice).
Local Abbreviation speaker_audio := (speaker_audio fmul getslice).
Local Abbreviation accumulate := (accumulate fmul getslice).
Local Abbreviation group_by_speaker := (group_by_speaker fmul getslice).
Local Abbreviation from_wav := (from_wav decode_wav).
Local Abbreviation export := (export encode_wav writable).
Local Abbreviation export_segment := (export_segment fmul getslice encode_wav writable).
Local Abbreviation export_segments := (export_segments fmul getslice encode_wav writable).
Local Abbreviation segment_writes := (segment_writes fmul getslice encode_wav).
Local Abbreviation save_speaker := (save_speaker encode_wav decode_wav writable).
Local Abbreviation save_speakers := (save_speakers encode_wav decode_wav writable).
Local Abbreviation run_pipeline := (run_pipeline pipeline).
Local Abbreviation merge_file :=
  (merge_file fmul getslice encode_wav decode_wav writable pipeline).
Local Abbreviation extract_file :=
  (extract_file fmul getslice encode_wav decode_wav writable pipeline).
Local Abbreviation extract_voices :=
  (extract_voices fmul getslice encode_wav decode_wav writable pipeline listdir).
Local Abbreviation scd_n_files_and_save_all_voices :=
  (scd_n_files_and_save_all_voices fmul getslice encode_wav decode_wav writable
     pipeline listdir).

(** *** The grouping loop *)

(** One turn of the loop never raises: the key it reads has just been
    made present. *)
Lemma accumulate_Ok audio (d : Dict.t AudioSegment) (t : Track float) :
  ∃ d', accumulate audio d t = Ok d'
    ∧ Dict.keys d' = (if Dict.contains (speaker t) d then Dict.keys d
                      else Dict.keys d ++ [speaker t])
    ∧ Dict.getitem (speaker t) d'
      = Some (default [] (Dict.getitem (speaker t) d) ++ slice_of audio t)
    ∧ ∀ k, k ≠ speaker t → Dict.getitem k d' = Dict.getitem k d.
Proof.
  unfold accumulate, Dict.contains.
  destruct (Dict.getitem (speaker t) d) as [buffer|] eqn:E; simpl.
  - rewrite E. eexists; split; [done|]. split; [|split].
    + rewrite keys_setitem. unfold Dict.contains. by rewrite E.
    + by rewrite getitem_setitem_eq.
    + intros k Hk. by rewrite getitem_setitem_ne.
  - rewrite getitem_setitem_eq. eexists; split; [done|]. split; [|split].
    + rewrite !keys_setitem. unfold Dict.contains.
      by rewrite getitem_setitem_eq, E.
    + by rewrite getitem_setitem_eq.
    + intros k Hk. by rewrite !getitem_setitem_ne.
Qed.

(** The loop started from any dictionary: it returns, old keys keep their
    places, new labels follow in first-seen order, and every buffer grows
    by the slices of its speaker. *)
Lemma fold_accumulate audio (tracks : list (Track float)) (d : Dict.t AudioSegment) :
  ∃ d', fold_outcome tracks d (accumulate audio) = Ok d'
    ∧ Dict.keys d'
      = Dict.keys d ++ filter (λ k, k ∉ Dict.keys d) (first_seen (speaker <$> tracks))
    ∧ ∀ k, Dict.getitem k d'
           = match Dict.getitem k d with
             | Some buffer => Some (buffer ++ speaker_audio audio tracks k)
             | None => if decide (k ∈ speaker <$> tracks)
                       then Some (speaker_audio audio tracks k) else None
             end.
Proof.
  revert d. induction tracks as [|t tracks IH]; intros d; simpl.
  - exists d. split; [done|]. split; [by rewrite app_nil_r|].
    intros k. unfold speaker_audio; simpl.
    destruct (Dict.getitem k d); [by rewrite app_nil_r|].
    done.
  - destruct (accumulate_Ok audio d t) as (d1 & -> & Hkeys1 & Hget1 & Hframe1).
    destruct (IH d1) as (d' & -> & Hkeys & Hget).
    exists d'. split; [done|]. split.
    + rewrite Hkeys, Hkeys1.
      destruct (Dict.contains (speaker t) d) eqn:Hc.
      * apply contains_keys in Hc.
        rewrite filter_cons_False by (intros Hn; by apply Hn).
        f_equal. rewrite list_filter_filter_l; [done|].
        intros x Hx ->. done.
      * assert (speaker t ∉ Dict.keys d) as Hn.
        { intros Hin%contains_keys. by rewrite Hin in Hc. }
        rewrite filter_cons_True by done.
        rewrite <- app_assoc. simpl. do 2 f_equal.
        rewrite list_filter_filter. apply list_filter_iff.
        intros x. rewrite not_elem_of_app, not_elem_of_cons.
        split; [by intros [? [? _]]|].
        intros [? ?]. repeat split; [done..|apply not_elem_of_nil].
    + intros k. rewrite Hget. unfold speaker_audio. simpl.
      destruct (decide (k = speaker t)) as [->|Hne].
      * rewrite Hget1. rewrite filter_cons_True by done. simpl.
        rewrite <- app_assoc.
        destruct (Dict.getitem (speaker t) d); simpl; [done|].
        rewrite decide_True; [done|apply elem_of_cons; by left].
      * rewrite Hframe1 by done.
        rewrite filter_cons_False by (intros ?; by apply Hne).
        destruct (Dict.getitem k d); [done|].
        apply decide_ext. rewrite elem_of_cons.
        split; [by right|intros [?|?]; [by destruct Hne|done]].
Qed.

(** *** Claims about the grouping loop *)

(** C1. In per-speaker mode, for every label that occurs in the stream of
    a file, the loop returns (it never raises) and the buffer it holds for
    that label is the slices of that label's tracks, in emission order,
    end to end: started empty at the first sight of the label, with each
    slice appended at the end, none moved, dropped, repeated or padded. *)
Theorem speaker_buffer_is_concatenation
    (audio : AudioSegment) (tracks : list (Track float)) (label : string) :
  label ∈ speaker <$> tracks →
  ∃ speaker_segments,
    group_by_speaker audio tracks = Ok speaker_segments
    ∧ Dict.getitem label speaker_segments
      = Some (concat (slice_of audio <$> filter (λ t, speaker t = label) tracks)).
Proof.
  intros Hin. unfold group_by_speaker.
  destruct (fold_accumulate audio tracks Dict.empty) as (d & Hrun & _ & Hget).
  exists d. split; [done|].
  rewrite Hget. simpl. by rewrite decide_True.
Qed.

(** C8. The dictionary that the grouping loop hands to the saving loop
    lists the speaker labels in the order in which each first occurred in
    the stream; being the value of a function of the stream, it is the
    same on every run. *)
Theorem speaker_labels_in_first_seen_order
    (audio : AudioSegment) (tracks : list (Track float)) :
  ∃ speaker_segments,
    group_by_speaker audio tracks = Ok speaker_segments
    ∧ (Dict.items speaker_segments).*1 = first_seen (speaker <$> tracks).
Proof.
  unfold group_by_speaker.
  destruct (fold_accumulate audio tracks Dict.empty) as (d & Hrun & Hkeys & _).
  exists d. split; [done|].
  change ((Dict.items d).*1) with (Dict.keys d). rewrite Hkeys. simpl.
  apply filter_all. intros x _. apply not_elem_of_nil.
Qed.

(** *** The per-segment loop *)

Lemma export_run (segment : AudioSegment) (path : string) (w : World) :
  writable path = true →
  export segment path w = (Ok tt, set_files (<[path := encode_wav segment]>) w).
Proof. intros H. unfold export. by rewrite H. Qed.

Lemma segment_writes_cons (out base : string) (audio : AudioSegment)
    (t : Track float) (tracks : list (Track float)) (n0 : nat) :
  segment_writes out base audio (t :: tracks) n0
  = (segment_file out base (speaker t) n0, encode_wav (slice_of audio t))
    :: segment_writes out base audio tracks (n0 + 1).
Proof.
  unfold segment_writes. rewrite imap_cons, Nat.add_0_r. f_equal.
  apply imap_ext. intros i x _. simpl. do 2 f_equal. lia.
Qed.

Lemma for_fold_export_segment (out base : string) (audio : AudioSegment)
    (tracks : list (Track float)) (n0 : nat) (w : World) :
  (∀ i t, tracks !! i = Some t →
     writable (segment_file out base (speaker t) (n0 + i)) = true) →
  for_fold tracks n0 (export_segment out base audio) w
  = (Ok (n0 + length tracks),
     set_files (λ fs, write_all fs (segment_writes out base audio tracks n0)) w).
Proof.
  revert n0 w. induction tracks as [|t tracks IH]; intros n0 w Hw.
  - simpl. unfold mret, M_ret. by rewrite Nat.add_0_r, set_files_id.
  - rewrite segment_writes_cons. simpl for_fold. unfold export_segment at 1.
    rewrite (bind_Ok _ _ w (set_files
      (<[segment_file out base (speaker t) n0 := encode_wav (slice_of audio t)]>) w)
      (n0 + 1)).
    + rewrite IH.
      * simpl. f_equal. f_equal. lia.
      * intros i x Hi. replace (n0 + 1 + i) with (n0 + S i) by lia.
        by apply Hw.
    + unfold export_segment.
      rewrite (bind_Ok _ _ w (set_files
        (<[segment_file out base (speaker t) n0 := encode_wav (slice_of audio t)]>) w)
        tt); [done|].
      apply export_run. specialize (Hw 0 t eq_refl).
      by rewrite Nat.add_0_r in Hw.
Qed.

Lemma NoDup_segment_writes (out base : string) (audio : AudioSegment)
    (tracks : list (Track float)) (n0 : nat) :
  NoDup (segment_writes out base audio tracks n0).*1.
Proof.
  apply NoDup_alt. intros i j p. unfold segment_writes.
  rewrite !list_lookup_fmap, !list_lookup_imap.
  destruct (tracks !! i) as [ti|]; [|done].
  destruct (tracks !! j) as [tj|]; [|done]. simpl.
  intros [= <-] [= H]. apply segment_file_inj in H as [_ H]. lia.
Qed.

Lemma lookup_segment_writes (out base : string) (audio : AudioSegment)
    (tracks : list (Track float)) (n0 : nat) fs (i : nat) (t : Track float) :
  tracks !! i = Some t →
  write_all fs (segment_writes out base audio tracks n0)
    !! segment_file out base (speaker t) (n0 + i)
  = Some (encode_wav (slice_of audio t)).
Proof.
  intros Hi. apply (lookup_write_all_NoDup _ _ i); [apply NoDup_segment_writes|].
  unfold segment_writes. by rewrite list_lookup_imap, Hi.
Qed.

(** *** The saving loop *)

(** What one turn of the saving loop does, case by case. *)
Lemma save_speaker_run (out base label : string) (buffer : AudioSegment) (w : World) :
  save_speaker out base (label, buffer) w
  = let path := speaker_file out base label in
    match files w !! path with
    | None =>
        if writable path
        then (Ok tt, set_files (<[path := encode_wav buffer]>) w)
        else (Raise OSError, w)
    | Some raw =>
        match decode_wav raw with
        | Some existing =>
            if writable path
            then (Ok tt, set_files (<[path := encode_wav (existing ++ buffer)]>) w)
            else (Raise OSError, w)
        | None => (Raise CouldntDecodeError, w)
        end
    end.
Proof.
  unfold save_speaker, mbind, M_bind, path_exists, from_wav, export. simpl.
  destruct (files w !! speaker_file out base label) as [raw|] eqn:E; simpl.
  - rewrite E. by destruct (decode_wav raw).
  - done.
Qed.

(** One turn of the saving loop leaves every path but its own as it was,
    whether it returns or raises. *)
Lemma save_speaker_frame (out base label : string) (buffer : AudioSegment)
    (w : World) (p : string) :
  p ≠ speaker_file out base label →
  files (save_speaker out base (label, buffer) w).2 !! p = files w !! p.
Proof.
  intros Hp. rewrite save_speaker_run. simpl.
  destruct (files w !! speaker_file out base label) as [raw|].
  - destruct (decode_wav raw); [|done].
    destruct (writable _); [|done]. simpl. by rewrite lookup_insert_ne.
  - destruct (writable _); [|done]. simpl. by rewrite lookup_insert_ne.
Qed.

Lemma save_speakers_frame (out base : string) (items : Dict.t AudioSegment)
    (w : World) (p : string) :
  (∀ label, label ∈ Dict.keys items → p ≠ speaker_file out base label) →
  files (save_speakers out base items w).2 !! p = files w !! p.
Proof.
  unfold save_speakers, Dict.items, Dict.keys.
  revert w. induction items as [|[label buffer] items IH]; intros w Hp; [done|].
  rewrite for_each_cons.
  pose proof (save_speaker_frame out base label buffer w p) as Hstep.
  destruct (save_speaker out base (label, buffer) w) as [[[]|e] w1];
    cbn [fst snd] in Hstep |- *.
  - rewrite IH.
    + apply Hstep, Hp. csimpl. by left.
    + intros l Hl. apply Hp. csimpl. by right.
  - apply Hstep, Hp. csimpl. by left.
Qed.

(** The outcome of one turn, and what it leaves at its path, depend on
    the world only through what is at that path. *)
Lemma save_speaker_reads (out base label : string) (buffer : AudioSegment)
    (w1 w2 : World) :
  files w1 !! speaker_file out base label = files w2 !! speaker_file out base label →
  (save_speaker out base (label, buffer) w1).1
  = (save_speaker out base (label, buffer) w2).1
  ∧ files (save_speaker out base (label, buffer) w1).2 !! speaker_file out base label
    = files (save_speaker out base (label, buffer) w2).2 !! speaker_file out base label.
Proof.
  intros H. rewrite !save_speaker_run. cbv zeta. rewrite <- H.
  destruct (files w1 !! speaker_file out base label) as [raw|] eqn:E;
    [destruct (decode_wav raw)|];
    try destruct (writable _); cbn [fst snd set_files files];
    rewrite ?lookup_insert_eq; split; congruence.
Qed.

Lemma save_speakers_reads (out base : string) (items : Dict.t AudioSegment)
    (P : string → Prop) (w1 w2 : World) :
  (∀ label, label ∈ Dict.keys items → P (speaker_file out base label)) →
  (∀ p, P p → files w1 !! p = files w2 !! p) →
  (save_speakers out base items w1).1 = (save_speakers out base items w2).1
  ∧ ∀ p, P p → files (save_speakers out base items w1).2 !! p
               = files (save_speakers out base items w2).2 !! p.
Proof.
  unfold save_speakers, Dict.items, Dict.keys.
  revert w1 w2. induction items as [|[label buffer] items IH]; intros w1 w2 HP Hw.
  { done. }
  rewrite !for_each_cons.
  assert (P (speaker_file out base label)) as Hl by (apply HP; csimpl; by left).
  destruct (save_speaker_reads out base label buffer w1 w2 (Hw _ Hl)) as [Ho Hf].
  pose proof (save_speaker_frame out base label buffer w1) as Hfr1.
  pose proof (save_speaker_frame out base label buffer w2) as Hfr2.
  destruct (save_speaker out base (label, buffer) w1) as [o1 u1].
  destruct (save_speaker out base (label, buffer) w2) as [o2 u2].
  cbn [fst snd] in Ho, Hf, Hfr1, Hfr2. subst o2.
  assert (∀ p, P p → files u1 !! p = files u2 !! p) as Hu.
  { intros p Hp. destruct (decide (p = speaker_file out base label)) as [->|Hne].
    - done.
    - rewrite Hfr1, Hfr2 by done. by apply Hw. }
  destruct o1 as [[]|e]; [|done].
  apply IH; [|done]. intros l Hin. apply HP. csimpl. by right.
Qed.

(** Saving buffer after buffer under one key, over a file that holds
    [existing]: the file ends up holding [existing] followed by all the
    buffers in call order. *)
Lemma save_speaker_many (out base label : string) (buffers : list AudioSegment)
    (existing : AudioSegment) (w : World) :
  writable (speaker_file out base label) = true →
  (∀ audio, decode_wav (encode_wav audio) = Some audio) →
  files w !! speaker_file out base label = Some (encode_wav existing) →
  ∃ w', for_each buffers (λ buffer, save_speaker out base (label, buffer)) w = (Ok tt, w')
    ∧ files w' !! speaker_file out base label
      = Some (encode_wav (existing ++ concat buffers)).
Proof.
  intros Hw Hcodec. revert existing w.
  induction buffers as [|buffer buffers IH]; intros existing w Hfile.
  - exists w. by rewrite app_nil_r.
  - rewrite for_each_cons, save_speaker_run. cbv zeta.
    rewrite Hfile, Hcodec, Hw.
    destruct (IH (existing ++ buffer)
      (set_files (<[speaker_file out base label := encode_wav (existing ++ buffer)]>) w))
      as (w' & Hrun & Hres).
    { apply lookup_insert_eq. }
    exists w'. split; [done|]. simpl. by rewrite app_assoc.
Qed.

(** *** Claims about persistence and names *)

(** C2. The saving step of per-speaker mode, for one key: on a path that
    is not there it writes the buffer as the whole file; on a path that
    holds decodable audio it writes that audio followed by the buffer.
    With a codec that gives back what it was given, saving [A] and then
    [B] under one key leaves [A ++ B], and saving any non-empty sequence
    of buffers leaves them end to end in call order. *)
Theorem merge_persist_appends (out base label : string) :
  writable (speaker_file out base label) = true →
  (∀ audio, decode_wav (encode_wav audio) = Some audio) →
  (∀ w A, files w !! speaker_file out base label = None →
     save_speaker out base (label, A) w
     = (Ok tt, set_files (<[speaker_file out base label := encode_wav A]>) w))
  ∧ (∀ w raw existing B,
       files w !! speaker_file out base label = Some raw →
       decode_wav raw = Some existing →
       save_speaker out base (label, B) w
       = (Ok tt,
          set_files (<[speaker_file out base label := encode_wav (existing ++ B)]>) w))
  ∧ (∀ w A B, files w !! speaker_file out base label = None →
       ∃ w', (save_speaker out base (label, A) ;; save_speaker out base (label, B)) w
             = (Ok tt, w')
         ∧ files w' !! speaker_file out base label = Some (encode_wav (A ++ B)))
  ∧ (∀ w buffers, buffers ≠ [] →
       files w !! speaker_file out base label = None →
       ∃ w', for_each buffers (λ buffer, save_speaker out base (label, buffer)) w
             = (Ok tt, w')
         ∧ files w' !! speaker_file out base label = Some (encode_wav (concat buffers))).
Proof.
  intros Hw Hcodec.
  assert (∀ w A, files w !! speaker_file out base label = None →
     save_speaker out base (label, A) w
     = (Ok tt, set_files (<[speaker_file out base label := encode_wav A]>) w)) as Hfresh.
  { intros w A Hnone. rewrite save_speaker_run. cbv zeta. by rewrite Hnone, Hw. }
  assert (∀ w raw existing B,
       files w !! speaker_file out base label = Some raw →
       decode_wav raw = Some existing →
       save_speaker out base (label, B) w
       = (Ok tt,
          set_files (<[speaker_file out base label := encode_wav (existing ++ B)]>) w))
    as Hmerge.
  { intros w raw existing B Hsome Hdec. rewrite save_speaker_run. cbv zeta.
    by rewrite Hsome, Hdec, Hw. }
  split; [done|]. split; [done|]. split.
  - intros w A B Hnone.
    erewrite bind_Ok by (by apply Hfresh).
    erewrite Hmerge; [|apply lookup_insert_eq|apply Hcodec].
    eexists. split; [done|]. apply lookup_insert_eq.
  - intros w [|buffer buffers] Hne Hnone; [done|].
    rewrite for_each_cons, Hfresh by done.
    destruct (save_speaker_many out base label buffers buffer
      (set_files (<[speaker_file out base label := encode_wav buffer]>) w))
      as (w' & Hrun & Hres); [done|done|apply lookup_insert_eq|].
    by exists w'.
Qed.

(** C4, as the code has it.  When the file at the path of a key cannot
    be decoded, the decoder's exception (pydub's, no other is raised in
    its place) leaves the saving loop at that key: the world is the one
    the keys before it left, with the undecodable file as it was, and the
    keys after it are not saved. *)
Theorem undecodable_file_stops_saving (out base label : string)
    (before after : Dict.t AudioSegment) (buffer : AudioSegment)
    (raw : list byte) (w w1 : World) :
  save_speakers out base before w = (Ok tt, w1) →
  files w1 !! speaker_file out base label = Some raw →
  decode_wav raw = None →
  save_speakers out base (before ++ (label, buffer) :: after) w
  = (Raise CouldntDecodeError, w1).
Proof.
  intros Hbefore Hfile Hdec. unfold save_speakers, Dict.items in *.
  apply (for_each_raise _ _ _ _ _ w1); [done|].
  rewrite save_speaker_run. cbv zeta. by rewrite Hfile, Hdec.
Qed.

(** C10. In per-speaker mode, the saving loop of one file reads and
    writes only at the paths made from the labels of that file's stream:
    every other path holds afterwards what it held before, and what the
    loop returns or raises and leaves at those paths is the same in two
    worlds that agree on them. *)
Theorem saving_touches_only_speaker_paths (out base : string)
    (audio : AudioSegment) (tracks : list (Track float))
    (speaker_segments : Dict.t AudioSegment) :
  group_by_speaker audio tracks = Ok speaker_segments →
  (∀ w p,
     (∀ label, label ∈ speaker <$> tracks → p ≠ speaker_file out base label) →
     files (save_speakers out base speaker_segments w).2 !! p = files w !! p)
  ∧ (∀ w1 w2,
       (∀ label, label ∈ speaker <$> tracks →
          files w1 !! speaker_file out base label
          = files w2 !! speaker_file out base label) →
       (save_speakers out base speaker_segments w1).1
       = (save_speakers out base speaker_segments w2).1
       ∧ ∀ label, label ∈ speaker <$> tracks →
           files (save_speakers out base speaker_segments w1).2
             !! speaker_file out base label
           = files (save_speakers out base speaker_segments w2).2
             !! speaker_file out base label).
Proof.
  intros Hgroup.
  assert (∀ label, label ∈ Dict.keys speaker_segments → label ∈ speaker <$> tracks)
    as Hkeys.
  { unfold group_by_speaker in Hgroup.
    destruct (fold_accumulate audio tracks Dict.empty) as (d & Hrun & Hk & _).
    rewrite Hrun in Hgroup. injection Hgroup as <-.
    intros label. rewrite Hk. simpl. rewrite list_elem_of_filter.
    intros [_ Hin]. by apply elem_of_first_seen. }
  split.
  - intros w p Hp. apply save_speakers_frame. intros label Hin. by apply Hp, Hkeys.
  - intros w1 w2 Hagree.
    destruct (save_speakers_reads out base speaker_segments
      (λ p, ∃ label, label ∈ speaker <$> tracks ∧ p = speaker_file out base label)
      w1 w2) as [Ho Hf].
    + intros label Hin. exists label. split; [by apply Hkeys|done].
    + intros p (label & Hin & ->). by apply Hagree.
    + split; [done|]. intros label Hin. apply Hf. by exists label.
Qed.

(** C9. In per-segment mode nothing is asked of a path before it is
    written: an export to a path that holds a file returns normally and
    leaves the new slice as the whole content of the file.  So after the
    loop each path it names holds the slice alone, whatever it held
    before, and running the loop again over the world it left, with the
    counter back at zero, names the same paths and leaves the files as
    they are. *)
Theorem segment_export_overwrites (out base : string) (audio : AudioSegment)
    (tracks : list (Track float)) (w : World) :
  (∀ n t, tracks !! n = Some t →
     writable (segment_file out base (speaker t) n) = true) →
  (∀ n t old u, tracks !! n = Some t →
     files u !! segment_file out base (speaker t) n = Some old →
     export (slice_of audio t) (segment_file out base (speaker t) n) u
     = (Ok tt,
        set_files (<[segment_file out base (speaker t) n
                     := encode_wav (slice_of audio t)]>) u))
  ∧ ∃ w1 w2,
      export_segments out base audio tracks w = (Ok (length tracks), w1)
      ∧ (∀ n t, tracks !! n = Some t →
           files w1 !! segment_file out base (speaker t) n
           = Some (encode_wav (slice_of audio t)))
      ∧ export_segments out base audio tracks w1 = (Ok (length tracks), w2)
      ∧ files w2 = files w1.
Proof.
  intros Hw. split.
  - intros n t old u Hn _. apply export_run. by apply (Hw n).
  - unfold export_segments. rewrite for_fold_export_segment by done.
    eexists _, _. split; [done|]. split; [|split].
    + intros n t Hn. cbn [files set_files].
      by apply (lookup_segment_writes out base audio tracks 0 _ n t).
    + by rewrite for_fold_export_segment by done.
    + cbn [files set_files]. apply write_all_twice, NoDup_segment_writes.
Qed.

(** C3, as the code has it.  The label goes into the file name as it is,
    nothing in it replaced or escaped.  For one output folder and one base
    name, two different labels give two different paths, in per-speaker
    mode and, whatever the counts, in per-segment mode. *)
Theorem distinct_labels_distinct_paths (out base label1 label2 : string)
    (n1 n2 : nat) :
  label1 ≠ label2 →
  speaker_file out base label1 ≠ speaker_file out base label2
  ∧ segment_file out base label1 n1 ≠ segment_file out base label2 n2.
Proof.
  intros Hne. split.
  - intros H. by apply Hne, (speaker_file_inj out base).
  - intros H. apply segment_file_inj in H as [H _]. by apply Hne.
Qed.

(** *** One file from end to end *)

(** Per-segment mode on one file whose diarization and decoding succeed:
    the base name is what [os.path.splitext] leaves of the file name, the
    counter starts at zero for this file, and the bar moves by one. *)
Lemma extract_file_run (input out audio_file : string)
    (tracks : list (Track float)) (audio : AudioSegment) (raw : list byte) (w : World) :
  pipeline (Py.join input audio_file) (files w) = Ok tracks →
  files w !! Py.join input audio_file = Some raw →
  decode_wav raw = Some audio →
  (∀ n t, tracks !! n = Some t →
     writable (segment_file out (Py.splitext audio_file).1 (speaker t) n) = true) →
  extract_file input out audio_file w
  = (Ok tt,
     set_pbar (λ k, k + 1)
       (set_files
          (λ fs, write_all fs
                   (segment_writes out (Py.splitext audio_file).1 audio tracks 0)) w)).
Proof.
  intros Hpipe Hfile Hdec Hw. unfold extract_file.
  rewrite (bind_Ok _ _ w w tracks) by (unfold run_pipeline; by rewrite Hpipe).
  rewrite (bind_Ok _ _ w w audio) by (unfold from_wav; by rewrite Hfile, Hdec).
  erewrite bind_Ok; [done|].
  unfold export_segments. by rewrite for_fold_export_segment.
Qed.

(** Per-speaker mode on one file whose diarization and decoding succeed:
    the saving loop runs over the dictionary of the grouping loop, under
    the base name that [os.path.splitext] leaves of the file name. *)
Lemma merge_file_run (input out audio_file : string)
    (tracks : list (Track float)) (audio : AudioSegment) (raw : list byte)
    (speaker_segments : Dict.t AudioSegment) (w : World) :
  pipeline (Py.join input audio_file) (files w) = Ok tracks →
  files w !! Py.join input audio_file = Some raw →
  decode_wav raw = Some audio →
  group_by_speaker audio tracks = Ok speaker_segments →
  merge_file input out audio_file w
  = (save_speakers out (Py.splitext audio_file).1 speaker_segments ;; pbar_update 1) w.
Proof.
  intros Hpipe Hfile Hdec Hgroup. unfold merge_file.
  rewrite (bind_Ok _ _ w w tracks) by (unfold run_pipeline; by rewrite Hpipe).
  rewrite (bind_Ok _ _ w w audio) by (unfold from_wav; by rewrite Hfile, Hdec).
  by rewrite (bind_Ok _ _ w w speaker_segments) by (unfold lift; by rewrite Hgroup).
Qed.

(** *** Failures *)

(** A pipeline that raises ends the processing of the file at once. *)
Lemma merge_file_pipeline_raise (input out audio_file : string) (w : World) (e : exn) :
  pipeline (Py.join input audio_file) (files w) = Raise e →
  merge_file input out audio_file w = (Raise e, w).
Proof.
  intros H. unfold merge_file. apply bind_Raise. unfold run_pipeline. by rewrite H.
Qed.

Lemma extract_file_pipeline_raise (input out audio_file : string) (w : World) (e : exn) :
  pipeline (Py.join input audio_file) (files w) = Raise e →
  extract_file input out audio_file w = (Raise e, w).
Proof.
  intros H. unfold extract_file. apply bind_Raise. unfold run_pipeline. by rewrite H.
Qed.


Lemma for_list_getsize_world (input : string) (names : list string)
    (sizes : list nat) (w w' : World) :
  for_list names (λ f, getsize (Py.join input f)) w = (Ok sizes, w') → w' = w.
Proof.
  revert sizes w'. induction names as [|f names IH]; intros sizes w' H.
  - by injection H as _ <-.
  - simpl in H. unfold mbind, M_bind, getsize in H.
    destruct (files w !! Py.join input f); [|done].
    destruct (for_list names _ w) as [[rest|e] u] eqn:E; [|done].
    injection H as _ <-. by apply (IH rest).
Qed.


End Properties.

(** ** More of the scripts

    What follows covers the parts of the two scripts around the loops
    above: the order in which files are taken, how many files a pass
    leaves and what they hold, the progress bar and the closing line, and
    what a failure on the input leaves behind. *)

(** *** The order of the files *)

Lemma insert_by_key_perm (x : string * nat) (l : list (string * nat)) :
  insert_by_key x l ≡ₚ x :: l.
Proof.
  induction l as [|y l IH]; simpl; [done|].
  destruct (x.2 <? y.2)%nat; [done|].
  rewrite IH. apply Permutation_swap.
Qed.

Lemma insert_by_key_sorted (x : string * nat) (l : list (string * nat)) :
  StronglySorted (λ a b, (a.2 ≤ b.2)%nat) l →
  StronglySorted (λ a b, (a.2 ≤ b.2)%nat) (insert_by_key x l).
Proof.
  induction 1 as [|y l Hl IH Hy]; simpl.
  - repeat constructor.
  - destruct (Nat.ltb_spec x.2 y.2) as [Hlt|Hge].
    + constructor; [by constructor|].
      constructor; [lia|]. eapply Forall_impl; [exact Hy|]. simpl. lia.
    + constructor; [done|].
      rewrite insert_by_key_perm. by constructor.
Qed.

Lemma filter_none {A} (P : A → Prop) `{!∀ x, Decision (P x)} (l : list A) :
  Forall (λ x, ¬ P x) l → filter P l = [].
Proof.
  induction 1 as [|y l Hy Hl IH]; [done|]. by rewrite filter_cons_False.
Qed.

(** Among the elements of one key, a new element goes last. *)
Lemma insert_by_key_filter (x : string * nat) (l : list (string * nat)) (k : nat) :
  StronglySorted (λ a b, (a.2 ≤ b.2)%nat) l →
  filter (λ a, a.2 = k) (insert_by_key x l)
  = filter (λ a, a.2 = k) l ++ (if decide (x.2 = k) then [x] else []).
Proof.
  induction 1 as [|y l Hl IH Hy]; simpl.
  - rewrite filter_cons, filter_nil. by destruct (decide (x.2 = k)).
  - destruct (Nat.ltb_spec x.2 y.2) as [Hlt|Hge].
    + rewrite (filter_cons _ x). destruct (decide (x.2 = k)) as [Hk|Hk].
      * assert (filter (λ a, a.2 = k) (y :: l) = []) as ->; [|done].
        apply filter_none. constructor; [lia|].
        eapply Forall_impl; [exact Hy|]. simpl. lia.
      * by rewrite app_nil_r.
    + rewrite !(filter_cons _ y), IH.
      by destruct (decide (y.2 = k)).
Qed.

(** [sorted] is a stable sort: every element once, smaller keys first,
    and elements of equal key in the order they came in. *)
Lemma sorted_by_key_stable (l : list (string * nat)) :
  ∃ pairs,
    sorted_by_key l = pairs.*1
    ∧ pairs ≡ₚ l
    ∧ StronglySorted (λ a b, (a.2 ≤ b.2)%nat) pairs
    ∧ ∀ size, filter (λ a, a.2 = size) pairs = filter (λ a, a.2 = size) l.
Proof.
  exists (foldl (λ acc x, insert_by_key x acc) [] l).
  split; [done|].
  induction l as [|x l IH] using rev_ind.
  - split; [done|]. split; [constructor|done].
  - rewrite foldl_app. simpl. destruct IH as (Hperm & Hsorted & Hstable).
    split; [|split].
    + rewrite insert_by_key_perm, Hperm. by rewrite Permutation_cons_append.
    + by apply insert_by_key_sorted.
    + intros size. rewrite insert_by_key_filter by done.
      by rewrite Hstable, filter_app.
Qed.



(** *** How many files a sequence of writes adds *)

Lemma size_write_all_fresh fs (writes : list (string * list byte)) :
  NoDup writes.*1 →
  (∀ k, k ∈ writes.*1 → fs !! k = None) →
  size (write_all fs writes) = size fs + length writes.
Proof.
  induction writes as [|[k v] writes IH] using rev_ind; intros Hnd Hfresh.
  { unfold write_all. simpl. lia. }
  rewrite fmap_app in Hnd, Hfresh. csimpl in *.
  apply NoDup_app in Hnd as (Hnd & Hnin & _).
  rewrite write_all_snoc, length_app. simpl.
  rewrite map_size_insert_None.
  - rewrite IH; [lia|done|].
    intros k' Hk'. apply Hfresh, elem_of_app. by left.
  - rewrite lookup_write_all_other.
    + apply Hfresh, elem_of_app. right. by left.
    + intros Hin. apply (Hnin k Hin). by left.
Qed.

Section Coverage.

Set Default Proof Using "Type".

Context {float : Type} (fmul : float → Z → float).
Context {frame : Type} (getslice : list frame → float → float → list frame).
Context (encode_wav : list frame → list byte).
Context (decode_wav : list byte → option (list frame)).
Context (writable : string → bool).
Context (pipeline : string → gmap string (list byte) → outcome (list (Track float))).
Context (listdir : string → gmap string (list byte) → list string).

Local Abbreviation AudioSegment := (list frame).
Local Abbreviation slice_of := (slice_of fmul getslice).
Local Abbreviation speaker_audio := (speaker_audio fmul getslice).
Local Abbreviation group_by_speaker := (group_by_speaker fmul getslice).
Local Abbreviation audio_at := (audio_at decode_wav).
Local Abbreviation speaker_writes := (speaker_writes encode_wav decode_wav).
Local Abbreviation export := (export encode_wav writable).
Local Abbreviation export_segment := (export_segment fmul getslice encode_wav writable).
Local Abbreviation export_segments := (export_segments fmul getslice encode_wav writable).
Local Abbreviation segment_writes := (segment_writes fmul getslice encode_wav).
Local Abbreviation save_speaker := (save_speaker encode_wav decode_wav writable).
Local Abbreviation save_speakers := (save_speakers encode_wav decode_wav writable).
Local Abbreviation merge_file :=
  (merge_file fmul getslice encode_wav decode_wav writable pipeline).
Local Abbreviation extract_file :=
  (extract_file fmul getslice encode_wav decode_wav writable pipeline).
Local Abbreviation extract_voices :=
  (extract_voices fmul getslice encode_wav decode_wav writable pipeline listdir).
Local Abbreviation scd_n_files_and_save_all_voices :=
  (scd_n_files_and_save_all_voices fmul getslice encode_wav decode_wav writable
     pipeline listdir).

(** *** The saving loop in closed form *)

Lemma audio_at_insert_ne (fs : gmap string (list byte)) (p q : string) (v : list byte) :
  p ≠ q → audio_at (<[p := v]> fs) q = audio_at fs q.
Proof. intros Hne. unfold audio_at. by rewrite lookup_insert_ne. Qed.

Lemma speaker_writes_paths (out base : string) fs (items : Dict.t AudioSegment) :
  (speaker_writes out base fs items).*1 = speaker_file out base <$> Dict.keys items.
Proof.
  unfold speaker_writes, Dict.keys, Dict.items.
  rewrite <- !list_fmap_compose. by apply list_fmap_ext.
Qed.

Lemma NoDup_speaker_writes (out base : string) fs (items : Dict.t AudioSegment) :
  NoDup (Dict.keys items) → NoDup (speaker_writes out base fs items).*1.
Proof.
  intros Hnd. rewrite speaker_writes_paths.
  apply NoDup_fmap_2_strong; [|done].
  intros l1 l2 _ _. apply speaker_file_inj.
Qed.

Lemma speaker_writes_insert_ne (out base label : string) fs (v : list byte)
    (items : Dict.t AudioSegment) :
  label ∉ Dict.keys items →
  speaker_writes out base (<[speaker_file out base label := v]> fs) items
  = speaker_writes out base fs items.
Proof.
  intros Hnin. unfold speaker_writes, Dict.items.
  apply list_fmap_ext. intros i [l b] Hi. simpl.
  rewrite audio_at_insert_ne; [done|].
  intros Heq%speaker_file_inj. subst l. apply Hnin.
  unfold Dict.keys. apply list_elem_of_fmap. exists (label, b).
  split; [done|]. by eapply list_elem_of_lookup_2.
Qed.

(** The saving loop over a dictionary whose paths can all be written and
    hold, where they hold anything, audio that decodes: it returns, and
    each path receives what it held followed by the buffer of its key. *)
Lemma save_speakers_run (out base : string) (items : Dict.t AudioSegment) (w : World) :
  NoDup (Dict.keys items) →
  (∀ label, label ∈ Dict.keys items → writable (speaker_file out base label) = true) →
  (∀ label raw, label ∈ Dict.keys items →
     files w !! speaker_file out base label = Some raw → is_Some (decode_wav raw)) →
  save_speakers out base items w
  = (Ok tt, set_files (λ fs, write_all fs (speaker_writes out base (files w) items)) w).
Proof.
  unfold save_speakers, Dict.items. revert w.
  induction items as [|[label buffer] items IH]; intros w Hnd Hw Hdec.
  { simpl. unfold mret, M_ret. by rewrite set_files_id. }
  unfold Dict.keys in Hnd, Hw, Hdec. csimpl in Hnd. csimpl in Hw. csimpl in Hdec.
  apply NoDup_cons in Hnd as [Hnin Hnd].
  rewrite for_each_cons, save_speaker_run. cbv zeta.
  rewrite (Hw label) by (by left).
  assert (∀ v, for_each items (save_speaker out base)
                 (set_files (<[speaker_file out base label := v]>) w)
               = (Ok tt, set_files (λ fs, write_all fs
                    (speaker_writes out base (files w) items))
                    (set_files (<[speaker_file out base label := v]>) w))) as Hrest.
  { intros v. rewrite IH.
    - cbn [files set_files]. by rewrite speaker_writes_insert_ne.
    - done.
    - intros l Hl. apply Hw. by right.
    - intros l raw Hl. cbn [files set_files].
      rewrite lookup_insert_ne.
      + apply Hdec. by right.
      + intros Heq%speaker_file_inj. by subst l. }
  assert (speaker_writes out base (files w) ((label, buffer) :: items)
          = (speaker_file out base label,
             encode_wav (audio_at (files w) (speaker_file out base label) ++ buffer))
            :: speaker_writes out base (files w) items) as -> by done.
  unfold audio_at.
  destruct (files w !! speaker_file out base label) as [raw|] eqn:Hfile.
  - destruct (Hdec label raw) as [existing Hex]; [by left|done|].
    rewrite Hex. cbv iota beta. by rewrite Hrest.
  - cbv iota beta. by rewrite Hrest.
Qed.

Lemma getitem_Some_lookup {V} (k : string) (v : V) (d : list (string * V)) :
  Dict.getitem k d = Some v → ∃ i, d !! i = Some (k, v).
Proof.
  induction d as [|[k' v'] d IH]; simpl; [done|].
  destruct (String.eqb k' k) eqn:E.
  - apply String.eqb_eq in E as ->. intros [= ->]. by exists 0.
  - intros H. destruct (IH H) as [i Hi]. by exists (S i).
Qed.

(** What the grouping loop hands over: the labels in first-seen order,
    each once, each with the slices of its tracks. *)
Lemma group_by_speaker_dict (audio : AudioSegment) (tracks : list (Track float))
    (d : Dict.t AudioSegment) :
  group_by_speaker audio tracks = Ok d →
  Dict.keys d = first_seen (speaker <$> tracks)
  ∧ NoDup (Dict.keys d)
  ∧ (∀ label, label ∈ Dict.keys d ↔ label ∈ speaker <$> tracks)
  ∧ ∀ label, label ∈ speaker <$> tracks →
      Dict.getitem label d = Some (speaker_audio audio tracks label).
Proof.
  intros Hgroup. unfold group_by_speaker in Hgroup.
  destruct (fold_accumulate fmul getslice audio tracks Dict.empty)
    as (d' & Hrun & Hkeys & Hget).
  rewrite Hrun in Hgroup. injection Hgroup as ->.
  assert (Dict.keys d = first_seen (speaker <$> tracks)) as Hk.
  { rewrite Hkeys. simpl. apply filter_all. intros x _. apply not_elem_of_nil. }
  split; [done|]. split; [rewrite Hk; apply NoDup_first_seen|].
  split; [intros label; rewrite Hk; apply elem_of_first_seen|].
  intros label Hin. rewrite Hget. simpl. by rewrite decide_True.
Qed.

(** The saving loop on the dictionary of a stream, where every path of a
    label can be written and holds nothing or audio that decodes: it
    returns, leaves at the path of each label what was there followed by
    the slices of the label, and leaves the other paths alone. *)
Lemma save_group_run (out base : string) (audio : AudioSegment)
    (tracks : list (Track float)) (d : Dict.t AudioSegment) (w : World) :
  group_by_speaker audio tracks = Ok d →
  (∀ label, label ∈ speaker <$> tracks →
     writable (speaker_file out base label) = true) →
  (∀ label old, label ∈ speaker <$> tracks →
     files w !! speaker_file out base label = Some old → is_Some (decode_wav old)) →
  save_speakers out base d w
  = (Ok tt, set_files (λ fs, write_all fs (speaker_writes out base (files w) d)) w)
  ∧ ∀ label, label ∈ speaker <$> tracks →
      write_all (files w) (speaker_writes out base (files w) d)
        !! speaker_file out base label
      = Some (encode_wav (audio_at (files w) (speaker_file out base label)
                          ++ speaker_audio audio tracks label)).
Proof.
  intros Hgroup Hw Hdec.
  destruct (group_by_speaker_dict audio tracks d Hgroup) as (_ & Hnd & Hin & Hget).
  split.
  - apply save_speakers_run; [done|..].
    + intros label Hl. by apply Hw, Hin.
    + intros label old Hl. by apply Hdec, Hin.
  - intros label Hl.
    destruct (getitem_Some_lookup _ _ _ (Hget label Hl)) as [i Hi].
    apply (lookup_write_all_NoDup _ _ i); [by apply NoDup_speaker_writes|].
    unfold speaker_writes, Dict.items. rewrite list_lookup_fmap.
    by rewrite Hi.
Qed.

Lemma group_by_speaker_Ok (audio : AudioSegment) (tracks : list (Track float)) :
  ∃ d, group_by_speaker audio tracks = Ok d.
Proof.
  destruct (fold_accumulate fmul getslice audio tracks Dict.empty) as (d & Hrun & _).
  by exists d.
Qed.

(** *** What one file leaves *)

(** X2. Per-speaker mode on one file, from the pipeline to the progress
    bar.  When the pipeline returns, the input decodes, and the path of
    each speaker of the file can be written and holds nothing or audio
    that decodes, the file is processed to the end: the bar moves by one,
    a path that held nothing holds the slices of its speaker end to end,
    a path that held audio holds that audio followed by those slices, and
    every other path is as it was. *)
Theorem merge_file_leaves_speaker_files (input out audio_file : string)
    (tracks : list (Track float)) (audio : AudioSegment) (raw : list byte) (w : World) :
  pipeline (Py.join input audio_file) (files w) = Ok tracks →
  files w !! Py.join input audio_file = Some raw →
  decode_wav raw = Some audio →
  (∀ label, label ∈ speaker <$> tracks →
     writable (speaker_file out (Py.splitext audio_file).1 label) = true) →
  (∀ label old, label ∈ speaker <$> tracks →
     files w !! speaker_file out (Py.splitext audio_file).1 label = Some old →
     is_Some (decode_wav old)) →
  ∃ w', merge_file input out audio_file w = (Ok tt, w')
    ∧ pbar w' = pbar w + 1
    ∧ (∀ label, label ∈ speaker <$> tracks →
         files w !! speaker_file out (Py.splitext audio_file).1 label = None →
         files w' !! speaker_file out (Py.splitext audio_file).1 label
         = Some (encode_wav (speaker_audio audio tracks label)))
    ∧ (∀ label old existing, label ∈ speaker <$> tracks →
         files w !! speaker_file out (Py.splitext audio_file).1 label = Some old →
         decode_wav old = Some existing →
         files w' !! speaker_file out (Py.splitext audio_file).1 label
         = Some (encode_wav (existing ++ speaker_audio audio tracks label)))
    ∧ (∀ p, (∀ label, label ∈ speaker <$> tracks →
               p ≠ speaker_file out (Py.splitext audio_file).1 label) →
            files w' !! p = files w !! p).
Proof.
  intros Hpipe Hfile Hdecode Hw Hdec.
  destruct (group_by_speaker_Ok audio tracks) as [d Hgroup].
  destruct (save_group_run out (Py.splitext audio_file).1 audio tracks d w
              Hgroup Hw Hdec) as [Hsave Hlook].
  rewrite (merge_file_run fmul getslice encode_wav decode_wav writable pipeline
             input out audio_file tracks audio raw d w) by done.
  erewrite bind_Ok by exact Hsave.
  eexists. split; [done|]. split; [done|].
  cbn [files set_files set_pbar]. split; [|split].
  - intros label Hl Hnone. rewrite Hlook by done.
    unfold audio_at. by rewrite Hnone.
  - intros label old existing Hl Hsome Hex. rewrite Hlook by done.
    unfold audio_at. by rewrite Hsome, Hex.
  - intros p Hp. apply lookup_write_all_other.
    rewrite speaker_writes_paths.
    intros (label & -> & Hl)%list_elem_of_fmap.
    apply (Hp label); [|done].
    by apply (group_by_speaker_dict audio tracks d Hgroup).
Qed.

(** *** The names of the files that one source file leaves *)


(** X3. As the head of the per-speaker script says: one file per speaker,
    however many turns each speaker has.  When none of the speakers'
    paths is there yet, processing one file adds as many files as the
    stream has distinct labels. *)
Theorem merge_file_adds_one_file_per_speaker (input out audio_file : string)
    (tracks : list (Track float)) (audio : AudioSegment) (raw : list byte) (w : World) :
  pipeline (Py.join input audio_file) (files w) = Ok tracks →
  files w !! Py.join input audio_file = Some raw →
  decode_wav raw = Some audio →
  (∀ label, label ∈ speaker <$> tracks →
     writable (speaker_file out (Py.splitext audio_file).1 label) = true) →
  (∀ label, label ∈ speaker <$> tracks →
     files w !! speaker_file out (Py.splitext audio_file).1 label = None) →
  ∃ w', merge_file input out audio_file w = (Ok tt, w')
    ∧ size (files w') = size (files w) + length (first_seen (speaker <$> tracks)).
Proof.
  intros Hpipe Hfile Hdecode Hw Hfresh.
  destruct (group_by_speaker_Ok audio tracks) as [d Hgroup].
  destruct (group_by_speaker_dict audio tracks d Hgroup) as (Hkeys & Hnd & Hin & _).
  destruct (save_group_run out (Py.splitext audio_file).1 audio tracks d w
              Hgroup Hw) as [Hsave _].
  { intros label old Hl Hsome. by rewrite Hfresh in Hsome. }
  rewrite (merge_file_run fmul getslice encode_wav decode_wav writable pipeline
             input out audio_file tracks audio raw d w) by done.
  erewrite bind_Ok by exact Hsave.
  eexists. split; [done|].
  cbn [files set_files set_pbar].
  rewrite size_write_all_fresh.
  - f_equal. unfold speaker_writes, Dict.items.
    rewrite length_fmap, <- Hkeys. unfold Dict.keys. by rewrite length_fmap.
  - by apply NoDup_speaker_writes.
  - intros k. rewrite speaker_writes_paths.
    intros (label & -> & Hl)%list_elem_of_fmap. by apply Hfresh, Hin.
Qed.

(** X4. As the head of the per-segment script says: one file per turn.
    When none of the segment paths is there yet, processing one file adds
    as many files as the stream has tracks, and the bar moves by one. *)
Theorem extract_file_adds_one_file_per_track (input out audio_file : string)
    (tracks : list (Track float)) (audio : AudioSegment) (raw : list byte) (w : World) :
  pipeline (Py.join input audio_file) (files w) = Ok tracks →
  files w !! Py.join input audio_file = Some raw →
  decode_wav raw = Some audio →
  (∀ n t, tracks !! n = Some t →
     writable (segment_file out (Py.splitext audio_file).1 (speaker t) n) = true) →
  (∀ n t, tracks !! n = Some t →
     files w !! segment_file out (Py.splitext audio_file).1 (speaker t) n = None) →
  ∃ w', extract_file input out audio_file w = (Ok tt, w')
    ∧ size (files w') = size (files w) + length tracks
    ∧ pbar w' = pbar w + 1.
Proof.
  intros Hpipe Hfile Hdecode Hw Hfresh.
  rewrite (extract_file_run fmul getslice encode_wav decode_wav writable pipeline
             input out audio_file tracks audio raw w) by done.
  eexists. split; [done|]. split; [|done].
  cbn [files set_files set_pbar].
  rewrite size_write_all_fresh.
  - f_equal. unfold segment_writes. by rewrite length_imap.
  - apply NoDup_segment_writes.
  - intros k ([k' v] & -> & Hkv)%list_elem_of_fmap.
    apply list_elem_of_lookup in Hkv as [i Hi].
    unfold segment_writes in Hi. rewrite list_lookup_imap in Hi.
    destruct (tracks !! i) as [t|] eqn:Ht; [|done].
    injection Hi as <- <-. by apply (Hfresh i t).
Qed.

(** X5. Per-speaker mode run a second time over its own output appends
    again: with a codec that gives back what it was given, saving the
    dictionary of a stream twice, starting with none of its paths there,
    leaves each speaker's slices twice over at the speaker's path. *)
Theorem second_merge_pass_appends_again (out base : string) (audio : AudioSegment)
    (tracks : list (Track float)) (d : Dict.t AudioSegment) (w : World) :
  group_by_speaker audio tracks = Ok d →
  (∀ a, decode_wav (encode_wav a) = Some a) →
  (∀ label, label ∈ speaker <$> tracks →
     writable (speaker_file out base label) = true) →
  (∀ label, label ∈ speaker <$> tracks →
     files w !! speaker_file out base label = None) →
  ∃ w1 w2,
    save_speakers out base d w = (Ok tt, w1)
    ∧ save_speakers out base d w1 = (Ok tt, w2)
    ∧ ∀ label, label ∈ speaker <$> tracks →
        files w1 !! speaker_file out base label
        = Some (encode_wav (speaker_audio audio tracks label))
        ∧ files w2 !! speaker_file out base label
          = Some (encode_wav (speaker_audio audio tracks label
                              ++ speaker_audio audio tracks label)).
Proof.
  intros Hgroup Hcodec Hw Hfresh.
  destruct (save_group_run out base audio tracks d w Hgroup Hw) as [Hsave Hlook].
  { intros label old Hl Hsome. by rewrite Hfresh in Hsome. }
  assert (∀ label, label ∈ speaker <$> tracks →
            write_all (files w) (speaker_writes out base (files w) d)
              !! speaker_file out base label
            = Some (encode_wav (speaker_audio audio tracks label))) as Hfirst.
  { intros label Hl. rewrite Hlook by done. unfold audio_at.
    by rewrite Hfresh. }
  set (w1 := set_files (λ fs, write_all fs (speaker_writes out base (files w) d)) w)
    in *.
  destruct (save_group_run out base audio tracks d w1 Hgroup Hw) as [Hsave2 Hlook2].
  { intros label old Hl. cbn [w1 files set_files]. rewrite Hfirst by done.
    intros [= <-]. by rewrite Hcodec. }
  eexists w1, _. split; [exact Hsave|]. split; [exact Hsave2|].
  intros label Hl. split; [by apply Hfirst|].
  cbn [files set_files]. rewrite Hlook2 by done.
  unfold audio_at. cbn [w1 files set_files]. rewrite Hfirst by done.
  by rewrite Hcodec.
Qed.

(** *** The progress bar and the closing line *)

Lemma save_speaker_keeps (out base : string) (item : string * AudioSegment) (w : World) :
  pbar (save_speaker out base item w).2 = pbar w
  ∧ stdout (save_speaker out base item w).2 = stdout w.
Proof.
  destruct item as [label buffer]. rewrite save_speaker_run. cbv zeta.
  destruct (files w !! speaker_file out base label) as [raw|];
    [destruct (decode_wav raw); [|done]|];
    by destruct (writable _).
Qed.

Lemma export_segment_keeps (out base : string) (audio : AudioSegment)
    (n : nat) (t : Track float) (w : World) :
  pbar (export_segment out base audio n t w).2 = pbar w
  ∧ stdout (export_segment out base audio n t w).2 = stdout w.
Proof.
  unfold export_segment, mbind, M_bind, export.
  by destruct (writable _).
Qed.

Lemma for_each_keeps {A} (l : list A) (body : A → M unit) (w : World) :
  (∀ x u, pbar (body x u).2 = pbar u ∧ stdout (body x u).2 = stdout u) →
  pbar (for_each l body w).2 = pbar w ∧ stdout (for_each l body w).2 = stdout w.
Proof.
  intros Hbody. revert w. induction l as [|x l IH]; intros w; [done|].
  rewrite for_each_cons. destruct (Hbody x w) as [Hp Hs].
  destruct (body x w) as [[[]|e] w1]; cbn [fst snd] in *.
  - destruct (IH w1) as [Hp1 Hs1]. by rewrite Hp1, Hs1.
  - done.
Qed.

Lemma for_fold_keeps {A S} (l : list A) (s : S) (body : S → A → M S) (w : World) :
  (∀ s x u, pbar (body s x u).2 = pbar u ∧ stdout (body s x u).2 = stdout u) →
  pbar (for_fold l s body w).2 = pbar w ∧ stdout (for_fold l s body w).2 = stdout w.
Proof.
  intros Hbody. revert s w. induction l as [|x l IH]; intros s w; [done|].
  simpl. unfold mbind, M_bind. destruct (Hbody s x w) as [Hp Hs].
  destruct (body s x w) as [[s'|e] w1]; cbn [fst snd] in *.
  - destruct (IH s' w1) as [Hp1 Hs1]. by rewrite Hp1, Hs1.
  - done.
Qed.

(** A loop whose body prints nothing and moves the bar by one exactly when
    it returns: the loop prints nothing, and the bar ends at the length
    of the list when the loop returns, short of it when it raises. *)
Lemma for_each_counts {A} (l : list A) (body : A → M unit) (w : World) :
  (∀ x u, stdout (body x u).2 = stdout u
          ∧ pbar (body x u).2
            = pbar u + match (body x u).1 with Ok _ => 1 | Raise _ => 0 end) →
  stdout (for_each l body w).2 = stdout w
  ∧ match (for_each l body w).1 with
    | Ok _ => pbar (for_each l body w).2 = pbar w + length l
    | Raise _ => pbar (for_each l body w).2 < pbar w + length l
    end.
Proof.
  intros Hbody. revert w. induction l as [|x l IH]; intros w.
  { simpl. split; [done|lia]. }
  rewrite for_each_cons. destruct (Hbody x w) as [Hs Hp].
  destruct (body x w) as [[[]|e] w1]; cbn [fst snd] in *.
  - destruct (IH w1) as [Hs1 Hp1]. split; [by rewrite Hs1|].
    destruct (for_each l body w1) as [[[]|e] w2]; cbn [fst snd length] in *; lia.
  - split; [done|]. cbn [length]. lia.
Qed.

Lemma merge_file_counts (input out audio_file : string) (w : World) :
  stdout (merge_file input out audio_file w).2 = stdout w
  ∧ pbar (merge_file input out audio_file w).2
    = pbar w + match (merge_file input out audio_file w).1 with
               | Ok _ => 1 | Raise _ => 0 end.
Proof.
  unfold merge_file, mbind, M_bind, run_pipeline, from_wav, lift, pbar_update.
  destruct (pipeline _ _) as [tracks|e]; [|simpl; split; [done|lia]].
  destruct (files w !! _) as [raw|]; [|simpl; split; [done|lia]].
  destruct (decode_wav raw) as [audio|]; [|simpl; split; [done|lia]].
  destruct (group_by_speaker audio tracks) as [d|e]; [|simpl; split; [done|lia]].
  destruct (for_each_keeps (Dict.items d)
              (save_speaker out (Py.splitext audio_file).1) w) as [Hp Hs].
  { intros x u. apply save_speaker_keeps. }
  unfold save_speakers.
  destruct (for_each (Dict.items d) _ w) as [[[]|e] w1]; cbn [fst snd] in *.
  - cbn [set_pbar pbar stdout]. split; [done|lia].
  - split; [done|lia].
Qed.

Lemma extract_file_counts (input out audio_file : string) (w : World) :
  stdout (extract_file input out audio_file w).2 = stdout w
  ∧ pbar (extract_file input out audio_file w).2
    = pbar w + match (extract_file input out audio_file w).1 with
               | Ok _ => 1 | Raise _ => 0 end.
Proof.
  unfold extract_file, mbind, M_bind, run_pipeline, from_wav, pbar_update.
  destruct (pipeline _ _) as [tracks|e]; [|simpl; split; [done|lia]].
  destruct (files w !! _) as [raw|]; [|simpl; split; [done|lia]].
  destruct (decode_wav raw) as [audio|]; [|simpl; split; [done|lia]].
  destruct (for_fold_keeps tracks 0
              (export_segment out (Py.splitext audio_file).1 audio) w) as [Hp Hs].
  { intros n t u. apply export_segment_keeps. }
  unfold export_segments.
  destruct (for_fold tracks 0 _ w) as [[n|e] w1]; cbn [fst snd] in *.
  - cbn [set_pbar pbar stdout]. split; [done|lia].
  - split; [done|lia].
Qed.

Lemma sorted_by_key_length (l : list (string * nat)) :
  length (sorted_by_key l) = length l.
Proof.
  unfold sorted_by_key. rewrite length_fmap.
  induction l as [|x l IH] using rev_ind; [done|].
  rewrite foldl_app. simpl.
  rewrite insert_by_key_perm. simpl. rewrite IH, length_app. simpl. lia.
Qed.

(** Measuring the files changes nothing, and gives one size per name when
    it returns. *)
Lemma for_list_getsize_run (input : string) (names : list string) (w : World) :
  (for_list names (λ f, getsize (Py.join input f)) w).2 = w
  ∧ match (for_list names (λ f, getsize (Py.join input f)) w).1 with
    | Ok sizes => length sizes = length names
    | Raise _ => True
    end.
Proof.
  induction names as [|f names IH]; [done|].
  simpl. unfold mbind, M_bind.
  assert ((getsize (Py.join input f) w).2 = w) as Hg.
  { unfold getsize. by destruct (files w !! _). }
  destruct (getsize (Py.join input f) w) as [[n|e] u]; cbn [fst snd] in Hg; subst u;
    [|done].
  destruct IH as [Hw Hlen].
  destruct (for_list names _ w) as [[sizes|e] u]; cbn [fst snd] in *; subst u.
  - simpl. by rewrite Hlen.
  - done.
Qed.

(** Measuring files that are all there gives the length of each. *)
Lemma for_list_getsize_sizes (input : string) (names : list string) (w : World) :
  (∀ f, f ∈ names → is_Some (files w !! Py.join input f)) →
  for_list names (λ f, getsize (Py.join input f)) w
  = (Ok ((λ f, length (default [] (files w !! Py.join input f))) <$> names), w).
Proof.
  induction names as [|f names IH]; intros Hthere; [done|].
  simpl. unfold mbind, M_bind. unfold getsize at 1.
  destruct (Hthere f) as [raw Hraw]; [by left|]. rewrite Hraw.
  rewrite IH; [done|]. intros g Hg. apply Hthere. by right.
Qed.

Lemma zip_fmap_self {A B} (g : A → B) (l : list A) :
  zip l (g <$> l) = (λ x, (x, g x)) <$> l.
Proof. induction l as [|x l IH]; [done|]. csimpl. f_equal. exact IH. Qed.

(** X1. The order in which [extract_voices] takes the files.  When every
    listed [.wav] name is a file of the input folder, the script runs its
    loop body over the [.wav] names of the listing in this order: every
    name once, names of smaller files first, and names of files of equal
    size in the order of the listing. *)
Theorem files_taken_smallest_first (input out : string) (w : World) :
  (∀ f, f ∈ filter (λ f, Is_true (Py.endswith f ".wav")) (listdir input (files w)) →
     is_Some (files w !! Py.join input f)) →
  ∃ pairs : list (string * nat),
    pairs ≡ₚ (λ f, (f, length (default [] (files w !! Py.join input f))))
               <$> filter (λ f, Is_true (Py.endswith f ".wav")) (listdir input (files w))
    ∧ StronglySorted (λ a b, (a.2 ≤ b.2)%nat) pairs
    ∧ (∀ size,
         filter (λ a, a.2 = size) pairs
         = filter (λ a, a.2 = size)
             ((λ f, (f, length (default [] (files w !! Py.join input f))))
                <$> filter (λ f, Is_true (Py.endswith f ".wav"))
                      (listdir input (files w))))
    ∧ extract_voices input out w
      = (for_each pairs.*1 (extract_file input out) ;;
         print "Voice separation from audio files completed successfully.")
          (set_pbar (λ _, 0) w).
Proof.
  intros Hthere.
  set (wavs := filter (λ f, Is_true (Py.endswith f ".wav")) (listdir input (files w)))
    in *.
  destruct (sorted_by_key_stable
              ((λ f, (f, length (default [] (files w !! Py.join input f)))) <$> wavs))
    as (pairs & Hsorted & Hperm & Hord & Hstable).
  exists pairs. split; [done|]. split; [done|]. split; [done|].
  unfold extract_voices.
  rewrite (bind_Ok _ _ w w (listdir input (files w))) by done.
  fold wavs.
  rewrite (bind_Ok _ _ w w _ (for_list_getsize_sizes input wavs w Hthere)).
  rewrite zip_fmap_self, Hsorted.
  by rewrite (bind_Ok _ _ w (set_pbar (λ _, 0) w) tt) by done.
Qed.

(** *** A file that fails *)


(** X6. The closing line tells that every file was processed.  When
    either script returns, the progress bar stands at the number of
    [.wav] names in the listing and the closing line is the one line
    printed; when it raises, nothing is printed (and in per-speaker mode
    the bar is short of that number). *)
Theorem closing_line_means_all_files_done (input out : string) (w : World) :
  match (scd_n_files_and_save_all_voices input out w).1 with
  | Ok _ =>
      pbar (scd_n_files_and_save_all_voices input out w).2
      = length (filter (λ f, Is_true (Py.endswith f ".wav")) (listdir input (files w)))
      ∧ stdout (scd_n_files_and_save_all_voices input out w).2
        = stdout w ++ ["Processing complete."]
  | Raise _ =>
      pbar (scd_n_files_and_save_all_voices input out w).2
      < length (filter (λ f, Is_true (Py.endswith f ".wav")) (listdir input (files w)))
      ∧ stdout (scd_n_files_and_save_all_voices input out w).2 = stdout w
  end
  ∧ match (extract_voices input out w).1 with
    | Ok _ =>
        pbar (extract_voices input out w).2
        = length (filter (λ f, Is_true (Py.endswith f ".wav")) (listdir input (files w)))
        ∧ stdout (extract_voices input out w).2
          = stdout w ++ ["Voice separation from audio files completed successfully."]
    | Raise _ => stdout (extract_voices input out w).2 = stdout w
    end.
Proof.
  split.
  - unfold scd_n_files_and_save_all_voices, mbind, M_bind, os_listdir, tqdm_open, print.
    set (audio_files := filter _ (listdir input (files w))).
    destruct (for_each_counts audio_files (merge_file input out) (set_pbar (λ _, 0) w))
      as [Hs Hp].
    { intros x u. apply merge_file_counts. }
    destruct (for_each audio_files _ _) as [[[]|e] w1]; cbn [fst snd] in *.
    + cbn [set_stdout pbar stdout]. by rewrite Hs, Hp.
    + by rewrite Hs.
  - unfold extract_voices, mbind, M_bind, os_listdir, tqdm_open, print.
    set (wavs := filter _ (listdir input (files w))).
    destruct (for_list_getsize_run input wavs w) as [Hw Hlen].
    destruct (for_list wavs _ w) as [[sizes|e] w0]; cbn [fst snd] in *; subst w0;
      [|done].
    set (audio_files := sorted_by_key (zip wavs sizes)).
    destruct (for_each_counts audio_files (extract_file input out) (set_pbar (λ _, 0) w))
      as [Hs Hp].
    { intros x u. apply extract_file_counts. }
    destruct (for_each audio_files _ _) as [[[]|e] w1]; cbn [fst snd] in *.
    + cbn [set_stdout pbar stdout]. rewrite Hs, Hp. split; [|done].
      cbn [set_pbar pbar]. unfold audio_files.
      rewrite sorted_by_key_length, length_zip. lia.
    + by rewrite Hs.
Qed.

(** *** Inputs that give nothing *)

(** X7. A file that cannot be diarized or read leaves no trace.  When the
    pipeline raises on a file, or returns but the file is not there or
    does not decode, the processing of that file raises, in either mode,
    in the world as it was: no file is written, the bar does not move. *)
Theorem unreadable_input_changes_nothing (input out audio_file : string)
    (w : World) (e : exn) :
  pipeline (Py.join input audio_file) (files w) = Raise e
  ∨ (∃ tracks, pipeline (Py.join input audio_file) (files w) = Ok tracks
       ∧ files w !! Py.join input audio_file = None
       ∧ e = FileNotFoundError)
  ∨ (∃ tracks raw, pipeline (Py.join input audio_file) (files w) = Ok tracks
       ∧ files w !! Py.join input audio_file = Some raw
       ∧ decode_wav raw = None
       ∧ e = CouldntDecodeError) →
  merge_file input out audio_file w = (Raise e, w)
  ∧ extract_file input out audio_file w = (Raise e, w).
Proof.
  unfold merge_file, extract_file, mbind, M_bind, run_pipeline, from_wav.
  intros [Hpipe|[(tracks & Hpipe & Hfile & ->)|(tracks & raw & Hpipe & Hfile & Hdec & ->)]];
    rewrite Hpipe; [done|by rewrite Hfile|by rewrite Hfile, Hdec].
Qed.

(** X8. A file in which the pipeline finds no turn is processed and leaves
    no output: in either mode the files are as they were and the bar has
    moved by one. *)
Theorem silent_file_leaves_no_output (input out audio_file : string)
    (audio : AudioSegment) (raw : list byte) (w : World) :
  pipeline (Py.join input audio_file) (files w) = Ok [] →
  files w !! Py.join input audio_file = Some raw →
  decode_wav raw = Some audio →
  merge_file input out audio_file w = (Ok tt, set_pbar (λ k, k + 1) w)
  ∧ extract_file input out audio_file w = (Ok tt, set_pbar (λ k, k + 1) w).
Proof.
  intros Hpipe Hfile Hdec.
  unfold merge_file, extract_file, mbind, M_bind, run_pipeline, from_wav.
  by rewrite Hpipe, Hfile, Hdec.
Qed.

(** *** Nothing lost between the speakers *)

Lemma total_setitem_present (k : string) (v old : AudioSegment)
    (d : list (string * AudioSegment)) :
  Dict.getitem k d = Some old →
  sum_list (length <$> (Dict.setitem k v d).*2) + length old
  = sum_list (length <$> d.*2) + length v.
Proof.
  induction d as [|[k' v'] d IH]; simpl; [done|].
  destruct (String.eqb k' k) eqn:E; csimpl.
  - intros [= ->]. lia.
  - intros H. specialize (IH H). lia.
Qed.

Lemma total_setitem_absent (k : string) (v : AudioSegment)
    (d : list (string * AudioSegment)) :
  Dict.getitem k d = None →
  sum_list (length <$> (Dict.setitem k v d).*2)
  = sum_list (length <$> d.*2) + length v.
Proof.
  induction d as [|[k' v'] d IH]; simpl; [intros _; csimpl; lia|].
  destruct (String.eqb k' k) eqn:E; csimpl; [done|].
  intros H. rewrite (IH H). lia.
Qed.

(** One turn of the grouping loop adds the frames of one slice to the
    dictionary, no more and no fewer. *)
Lemma accumulate_total (audio : AudioSegment) (d d' : list (string * AudioSegment))
    (t : Track float) :
  accumulate fmul getslice audio d t = Ok d' →
  sum_list (length <$> d'.*2)
  = sum_list (length <$> d.*2) + length (slice_of audio t).
Proof.
  unfold accumulate, Dict.contains.
  destruct (Dict.getitem (speaker t) d) as [buffer|] eqn:E; simpl.
  - rewrite E. intros [= <-].
    pose proof (total_setitem_present (speaker t) (buffer ++ slice_of audio t)
                  buffer d E) as H.
    rewrite length_app in H. lia.
  - rewrite getitem_setitem_eq. intros [= <-].
    pose proof (total_setitem_present (speaker t) ([] ++ slice_of audio t) []
                  (Dict.setitem (speaker t) [] d) (getitem_setitem_eq _ _ _)) as H.
    rewrite (total_setitem_absent _ _ _ E) in H. simpl in H. simpl. lia.
Qed.

(** X11. Every frame of every slice ends up in exactly one buffer: the
    buffers that the grouping loop leaves hold together as many frames as
    the slices of all the tracks of the stream. *)
Theorem buffers_hold_all_the_slices (audio : AudioSegment) (tracks : list (Track float)) :
  ∃ speaker_segments,
    group_by_speaker audio tracks = Ok speaker_segments
    ∧ sum_list (length <$> (Dict.items speaker_segments).*2)
      = sum_list (length ∘ slice_of audio <$> tracks).
Proof.
  unfold group_by_speaker.
  assert (∀ d, ∃ d', fold_outcome tracks d (accumulate fmul getslice audio) = Ok d'
            ∧ sum_list (length <$> d'.*2)
              = sum_list (length <$> d.*2)
                + sum_list (length ∘ slice_of audio <$> tracks)) as Hfold.
  { induction tracks as [|t tracks IH]; intros d; csimpl.
    - exists d. split; [done|lia].
    - destruct (accumulate_Ok fmul getslice audio d t) as (d1 & Hstep & _).
      rewrite Hstep. destruct (IH d1) as (d' & Hrun & Htotal).
      exists d'. split; [done|].
      pose proof (accumulate_total audio d d1 t Hstep) as Hone.
      unfold compose at 1. rewrite Htotal, Hone. by rewrite Nat.add_assoc. }
  destruct (Hfold Dict.empty) as (d' & Hrun & Htotal).
  exists d'. split; [done|]. unfold Dict.items. by rewrite Htotal.
Qed.

(** *** Paths that cannot be written *)

Lemma for_fold_app {A S} (l1 l2 : list A) (s : S) (body : S → A → M S) (w : World) :
  for_fold (l1 ++ l2) s body w
  = match for_fold l1 s body w with
    | (Ok s', w') => for_fold l2 s' body w'
    | (Raise e, w') => (Raise e, w')
    end.
Proof.
  revert s w. induction l1 as [|x l1 IH]; intros s w; simpl; [done|].
  unfold mbind, M_bind. destruct (body s x w) as [[s'|e] w1]; [apply IH|done].
Qed.

(** X12. A path that cannot be written stops per-segment mode where it
    stands.  When the paths of the tracks before one track can be written
    and the path of that track cannot, the loop ends with the error of
    the operating system: the files of the tracks before it are there,
    that of the track and those of the tracks after it are not made. *)
Theorem unwritable_segment_path_stops_export (out base : string) (audio : AudioSegment)
    (before after : list (Track float)) (t : Track float) (w : World) :
  (∀ n x, before !! n = Some x →
     writable (segment_file out base (speaker x) n) = true) →
  writable (segment_file out base (speaker t) (length before)) = false →
  export_segments out base audio (before ++ t :: after) w
  = (Raise OSError,
     set_files (λ fs, write_all fs (segment_writes out base audio before 0)) w).
Proof.
  intros Hbefore Ht. unfold export_segments.
  rewrite for_fold_app.
  rewrite (for_fold_export_segment fmul getslice encode_wav writable) by done.
  simpl. unfold mbind, M_bind, export_segment, export.
  simpl. by rewrite Ht.
Qed.

(** X13. A path that cannot be written stops per-speaker mode where it
    stands.  When the keys before one key have been saved and the path of
    that key, holding nothing or audio that decodes, cannot be written,
    the saving loop ends with the error of the operating system in the
    world those keys left: the key and the keys after it are not saved. *)
Theorem unwritable_speaker_path_stops_saving (out base label : string)
    (before after : Dict.t AudioSegment) (buffer : AudioSegment) (w w1 : World) :
  save_speakers out base before w = (Ok tt, w1) →
  writable (speaker_file out base label) = false →
  (∀ raw, files w1 !! speaker_file out base label = Some raw →
     is_Some (decode_wav raw)) →
  save_speakers out base (before ++ (label, buffer) :: after) w = (Raise OSError, w1).
Proof.
  intros Hbefore Hw Hdec. unfold save_speakers, Dict.items in *.
  apply (for_each_raise _ _ _ _ _ w1); [done|].
  rewrite save_speaker_run. cbv zeta. rewrite Hw.
  destruct (files w1 !! speaker_file out base label) as [raw|]; [|done].
  destruct (Hdec raw eq_refl) as [existing ->]. done.
Qed.

End Coverage.

(** ** Tracks out of range

    Neither script looks at the bounds of a track: lines 54 and 107 hand
    them, times 1000, to the slice of the audio library.  What becomes of
    a track out of range is what the library makes of it. *)

Lemma fold_outcome_app {A S} (l1 l2 : list A) (s : S) (body : S → A → outcome S) :
  fold_outcome (l1 ++ l2) s body
  = match fold_outcome l1 s body with
    | Ok s' => fold_outcome l2 s' body
    | Raise e => Raise e
    end.
Proof.
  revert s. induction l1 as [|x l1 IH]; intros s; simpl; [done|].
  destruct (body s x) as [s'|e]; [apply IH|done].
Qed.

Section Bounds.

Set Default Proof Using "Type".

Context {float : Type} (fmul : float → Z → float).
Context {frame : Type} (getslice : list frame → float → float → list frame).
Context (getitem : list frame → float → float → outcome (list frame)).
Context (encode_wav : list frame → list byte).
Context (decode_wav : list byte → option (list frame)).
Context (writable : string → bool).
Context (pipeline : string → gmap string (list byte) → outcome (list (Track float))).

Local Abbreviation AudioSegment := (list frame).
Local Abbreviation slice_of := (slice_of fmul getslice).
Local Abbreviation speaker_audio := (speaker_audio fmul getslice).
Local Abbreviation accumulate := (accumulate fmul getslice).
Local Abbreviation group_by_speaker := (group_by_speaker fmul getslice).
Local Abbreviation export_segment := (export_segment fmul getslice encode_wav writable).
Local Abbreviation export_segments := (export_segments fmul getslice encode_wav writable).
Local Abbreviation segment_writes := (segment_writes fmul getslice encode_wav).
Local Abbreviation merge_file :=
  (merge_file fmul getslice encode_wav decode_wav writable pipeline).
Local Abbreviation extract_file :=
  (extract_file fmul getslice encode_wav decode_wav writable pipeline).

(** On a stream whose slices all return, the loops with the raising slice
    are the loops above. *)
Lemma fold_accumulate_returning (audio : AudioSegment) (tracks : list (Track float))
    (d : Dict.t AudioSegment) :
  (∀ x, x ∈ tracks → Raising.slice_of fmul getitem audio x = Ok (slice_of audio x)) →
  fold_outcome tracks d (Raising.accumulate fmul getitem audio)
  = fold_outcome tracks d (accumulate audio).
Proof.
  revert d. induction tracks as [|t tracks IH]; intros d Hret; [done|].
  simpl. unfold Raising.accumulate at 1, accumulate at 1.
  rewrite (Hret t) by (by left).
  destruct (Dict.getitem _ _) as [buffer|]; [|done].
  apply IH. intros x Hx. apply Hret. by right.
Qed.

Lemma group_by_speaker_returning (audio : AudioSegment) (tracks : list (Track float)) :
  (∀ x, x ∈ tracks → Raising.slice_of fmul getitem audio x = Ok (slice_of audio x)) →
  Raising.group_by_speaker fmul getitem audio tracks = group_by_speaker audio tracks.
Proof. apply fold_accumulate_returning. Qed.

Lemma for_fold_export_returning (out base : string) (audio : AudioSegment)
    (tracks : list (Track float)) (n0 : nat) (w : World) :
  (∀ x, x ∈ tracks → Raising.slice_of fmul getitem audio x = Ok (slice_of audio x)) →
  for_fold tracks n0 (Raising.export_segment fmul getitem encode_wav writable out base audio) w
  = for_fold tracks n0 (export_segment out base audio) w.
Proof.
  revert n0 w. induction tracks as [|t tracks IH]; intros n0 w Hret; [done|].
  simpl. unfold mbind, M_bind.
  assert (Raising.export_segment fmul getitem encode_wav writable out base audio n0 t w
          = export_segment out base audio n0 t w) as ->.
  { unfold Raising.export_segment, export_segment, mbind, M_bind, lift.
    by rewrite (Hret t) by (by left). }
  destruct (export_segment out base audio n0 t w) as [[n|e] w1]; [|done].
  apply IH. intros x Hx. apply Hret. by right.
Qed.

Lemma export_segments_returning (out base : string) (audio : AudioSegment)
    (tracks : list (Track float)) (w : World) :
  (∀ x, x ∈ tracks → Raising.slice_of fmul getitem audio x = Ok (slice_of audio x)) →
  Raising.export_segments fmul getitem encode_wav writable out base audio tracks w
  = export_segments out base audio tracks w.
Proof. apply for_fold_export_returning. Qed.

(** So is the processing of a file whose tracks can all be sliced. *)
Lemma merge_file_returning (input out audio_file : string) (w : World) :
  (∀ tracks raw audio,
     pipeline (Py.join input audio_file) (files w) = Ok tracks →
     files w !! Py.join input audio_file = Some raw →
     decode_wav raw = Some audio →
     ∀ x, x ∈ tracks → Raising.slice_of fmul getitem audio x = Ok (slice_of audio x)) →
  Raising.merge_file fmul getitem encode_wav decode_wav writable pipeline
    input out audio_file w
  = merge_file input out audio_file w.
Proof.
  intros Hret.
  unfold Raising.merge_file, merge_file, mbind, M_bind, run_pipeline, from_wav, lift.
  destruct (pipeline _ _) as [tracks|e] eqn:Hp; [|done].
  destruct (files w !! _) as [raw|] eqn:Hf; [|done].
  destruct (decode_wav raw) as [audio|] eqn:Hd; [|done].
  by rewrite (group_by_speaker_returning audio tracks) by (by eapply Hret).
Qed.

Lemma extract_file_returning (input out audio_file : string) (w : World) :
  (∀ tracks raw audio,
     pipeline (Py.join input audio_file) (files w) = Ok tracks →
     files w !! Py.join input audio_file = Some raw →
     decode_wav raw = Some audio →
     ∀ x, x ∈ tracks → Raising.slice_of fmul getitem audio x = Ok (slice_of audio x)) →
  Raising.extract_file fmul getitem encode_wav decode_wav writable pipeline
    input out audio_file w
  = extract_file input out audio_file w.
Proof.
  intros Hret.
  unfold Raising.extract_file, extract_file, mbind, M_bind, run_pipeline, from_wav.
  destruct (pipeline _ _) as [tracks|e] eqn:Hp; [|done].
  destruct (files w !! _) as [raw|] eqn:Hf; [|done].
  destruct (decode_wav raw) as [audio|] eqn:Hd; [|done].
  by rewrite (export_segments_returning out _ audio tracks) by (by eapply Hret).
Qed.

(** C5, as the code has it.  No bound of a track is checked, and there
    is no range error of the scripts' own: the slice of the audio
    library decides.  Take a track after tracks that were sliced and
    exported.  When its slice returns, whatever its bounds, the slice is
    kept and the loop goes on: in per-speaker mode it is in the buffer of
    its speaker, between the slices of the tracks before it and those of
    the tracks after it; in per-segment mode it is exported under the
    number of its place in the stream.  When its slice raises, nothing
    catches the exception: either loop ends with it, the tracks after it
    are not looked at, per-speaker mode is left without a dictionary to
    save, and per-segment mode with the files of the tracks before it and
    no other. *)
Theorem out_of_range_slice_is_kept_or_ends_the_loop (out base : string)
    (audio : AudioSegment) (before after : list (Track float)) (t : Track float)
    (w : World) :
  (∀ x, x ∈ before → Raising.slice_of fmul getitem audio x = Ok (slice_of audio x)) →
  (∀ n x, before !! n = Some x →
     writable (segment_file out base (speaker x) n) = true) →
  (Raising.slice_of fmul getitem audio t = Ok (slice_of audio t) →
   (∀ x, x ∈ after → Raising.slice_of fmul getitem audio x = Ok (slice_of audio x)) →
   (∀ n x, (t :: after) !! n = Some x →
      writable (segment_file out base (speaker x) (length before + n)) = true) →
   (∃ speaker_segments,
      Raising.group_by_speaker fmul getitem audio (before ++ t :: after)
      = Ok speaker_segments
      ∧ Dict.getitem (speaker t) speaker_segments
        = Some (speaker_audio audio before (speaker t)
                ++ slice_of audio t
                ++ speaker_audio audio after (speaker t)))
   ∧ (∃ w',
        Raising.export_segments fmul getitem encode_wav writable out base audio
          (before ++ t :: after) w
        = (Ok (length before + 1 + length after), w')
        ∧ files w' !! segment_file out base (speaker t) (length before)
          = Some (encode_wav (slice_of audio t))))
  ∧ (∀ e, Raising.slice_of fmul getitem audio t = Raise e →
       Raising.group_by_speaker fmul getitem audio (before ++ t :: after) = Raise e
       ∧ Raising.export_segments fmul getitem encode_wav writable out base audio
           (before ++ t :: after) w
         = (Raise e,
            set_files (λ fs, write_all fs (segment_writes out base audio before 0)) w)).
Proof.
  intros Hbefore Hwbefore. split.
  - intros Ht Hafter Hwafter.
    assert (∀ x, x ∈ before ++ t :: after →
              Raising.slice_of fmul getitem audio x = Ok (slice_of audio x)) as Hall.
    { intros x. rewrite elem_of_app, elem_of_cons.
      intros [Hx|[->|Hx]]; [by apply Hbefore|done|by apply Hafter]. }
    assert (∀ n x, (before ++ t :: after) !! n = Some x →
              writable (segment_file out base (speaker x) (0 + n)) = true) as Hw.
    { intros n x Hn. simpl. destruct (decide (n < length before)) as [Hlt|Hge].
      - rewrite lookup_app_l in Hn by done. by apply Hwbefore.
      - rewrite lookup_app_r in Hn by lia.
        replace n with (length before + (n - length before)) at 1 by lia.
        by apply Hwafter. }
    split.
    + rewrite group_by_speaker_returning by done. unfold group_by_speaker.
      destruct (fold_accumulate fmul getslice audio (before ++ t :: after) Dict.empty)
        as (d & Hrun & _ & Hget).
      exists d. split; [done|].
      rewrite Hget. simpl. rewrite decide_True.
      * unfold speaker_audio.
        rewrite filter_app, filter_cons_True by done.
        by rewrite fmap_app, concat_app.
      * rewrite fmap_app, elem_of_app, fmap_cons, elem_of_cons. by right; left.
    + rewrite export_segments_returning by done. unfold export_segments.
      rewrite (for_fold_export_segment fmul getslice encode_wav writable) by done.
      eexists. split.
      * f_equal. f_equal. rewrite length_app. simpl. lia.
      * cbn [files set_files].
        apply (lookup_segment_writes fmul getslice encode_wav
                 out base audio _ 0 _ (length before) t).
        by rewrite lookup_app_r, Nat.sub_diag by lia.
  - intros e Ht. split.
    + unfold Raising.group_by_speaker. rewrite fold_outcome_app.
      rewrite fold_accumulate_returning by done.
      destruct (fold_accumulate fmul getslice audio before Dict.empty) as (d & -> & _).
      simpl. unfold Raising.accumulate. by rewrite Ht.
    + unfold Raising.export_segments. rewrite for_fold_app.
      rewrite for_fold_export_returning by done.
      rewrite (for_fold_export_segment fmul getslice encode_wav writable) by done.
      simpl. unfold mbind, M_bind, Raising.export_segment, mbind, M_bind, lift.
      by rewrite Ht.
Qed.

End Bounds.

(** *** Tracks in range at the reference instance

    A track within the audio, [0 <= start < end <= duration], is sliced
    without an exception, and its slice is the one of [Toy.getslice]. *)

Lemma int_floor (x : Q) : (0 <= x)%Q → Toy.int x = Qfloor x.
Proof.
  destruct x as [n d]. unfold Qle, Toy.int, Qfloor. simpl. intros H.
  apply Z.quot_div_nonneg; lia.
Qed.

Lemma py_slice_length {A} (data : list A) (i j : Z) :
  (0 ≤ i ≤ j)%Z → (j ≤ Z.of_nat (length data))%Z →
  Z.of_nat (length (Toy.py_slice data i j)) = (j - i)%Z.
Proof.
  intros Hij Hj. unfold Toy.py_slice.
  assert ((i <? 0)%Z = false) as -> by lia.
  assert ((j <? 0)%Z = false) as -> by lia.
  rewrite length_take, length_drop. lia.
Qed.

Lemma in_range_track_is_sliced (audio : list byte) (t : Track Q) :
  Toy.in_range audio t = true →
  Raising.slice_of Toy.fmul Toy.getitem audio t
  = Ok (slice_of Toy.fmul Toy.getslice audio t).
Proof.
  unfold Toy.in_range. intros [[H0 Hlt]%andb_true_iff Hend]%andb_true_iff.
  apply negb_true_iff in Hlt.
  apply Qle_bool_iff in H0, Hend.
  assert (¬ (seg_end (turn t) <= seg_start (turn t))%Q) as Hlt'.
  { intros H%Qle_bool_iff. by rewrite H in Hlt. }
  apply Qnot_le_lt in Hlt'.
  unfold Raising.slice_of, slice_of, Toy.getitem, Toy.getslice, Toy.fmul.
  set (len := Z.of_nat (length audio)) in *.
  set (a := (seg_start (turn t) * inject_Z 1000)%Q).
  set (b := (seg_end (turn t) * inject_Z 1000)%Q).
  change (inject_Z 1000) with (1000#1)%Q in *.
  assert (0 <= a)%Q as Ha by (unfold a; lra).
  assert (a <= b)%Q as Hab by (unfold a, b; lra).
  assert (b <= inject_Z len)%Q as Hb.
  { unfold b. apply (Qmult_le_compat_r _ _ (1000#1)) in Hend; [|done].
    by rewrite (Qmult_comm (_ / _)), Qmult_div_r in Hend. }
  assert (Qle_bool a (inject_Z len) = true) as -> by (apply Qle_bool_iff; lra).
  assert (Qle_bool b (inject_Z len) = true) as -> by (by apply Qle_bool_iff).
  unfold Toy.parse_position.
  assert (Qle_bool 0 a = true) as -> by (by apply Qle_bool_iff).
  assert (Qle_bool 0 b = true) as -> by (apply Qle_bool_iff; lra).
  rewrite !int_floor by lra.
  assert (0 ≤ Qfloor a)%Z as Hi.
  { rewrite <- (Qfloor_Z 0). by apply Qfloor_resp_le. }
  assert (Qfloor a ≤ Qfloor b)%Z as Hij by (by apply Qfloor_resp_le).
  assert (Qfloor b ≤ len)%Z as Hj.
  { rewrite <- (Qfloor_Z len). by apply Qfloor_resp_le. }
  rewrite py_slice_length by (unfold len in *; lia).
  by rewrite Z.sub_diag.
Qed.

(** *** Names across files *)

Lemma startswith_no_slash (base rest : string) :
  "/"%char ∉ list_ascii_of_string base →
  Py.startswith (base +:+ "_speaker_" +:+ rest) "/" = false.
Proof.
  destruct base as [|c base]; simpl; [done|].
  rewrite not_elem_of_cons. intros [Hne _].
  destruct (Ascii.eqb c "/") eqn:E; [|done].
  apply Ascii.eqb_eq in E. by destruct Hne.
Qed.

(** Two different base names without a slash give different paths for one
    and the same label. *)
Lemma distinct_bases_distinct_paths (out base1 base2 label : string) (n1 n2 : nat) :
  "/"%char ∉ list_ascii_of_string base1 →
  "/"%char ∉ list_ascii_of_string base2 →
  base1 ≠ base2 →
  speaker_file out base1 label ≠ speaker_file out base2 label
  ∧ segment_file out base1 label n1 ≠ segment_file out base2 label n2.
Proof.
  intros H1 H2 Hne. split.
  - unfold speaker_file. intros H%join_inj.
    + by apply string_app_inj_r in H.
    + by rewrite !startswith_no_slash.
  - unfold segment_file. intros H%join_inj.
    2:{ by rewrite !startswith_no_slash. }
    apply (f_equal list_ascii_of_string) in H.
    assert (∀ b n, list_ascii_of_string
                     (b +:+ "_speaker_" +:+ label +:+ "_segment_" +:+ Py.str n +:+ ".wav")
                   = list_ascii_of_string (b +:+ "_speaker_" +:+ label +:+ "_segment")
                     ++ "_"%char :: (list_ascii_of_string (Py.str n)
                                     ++ list_ascii_of_string ".wav")) as Hcut.
    { intros b n. rewrite !chars_app. rewrite <- !app_assoc. done. }
    rewrite !Hcut in H.
    apply split_at_last in H as [H _].
    + apply chars_inj in H. by apply string_app_inj_r in H.
    + rewrite not_elem_of_app. split; [apply str_no_underscore|].
      simpl. repeat (rewrite not_elem_of_cons; split; [done|]). apply not_elem_of_nil.
    + rewrite not_elem_of_app. split; [apply str_no_underscore|].
      simpl. repeat (rewrite not_elem_of_cons; split; [done|]). apply not_elem_of_nil.
Qed.

Lemma substring_split (s : string) (i : nat) :
  (i ≤ String.length s)%nat →
  s = String.substring 0 i s +:+ String.substring i (String.length s - i) s.
Proof.
  revert i. induction s as [|c s IH]; intros i Hi.
  - simpl in Hi. by replace i with 0 by lia.
  - destruct i as [|i]; simpl.
    + by rewrite substring_whole.
    + change (String c s
              = String c (String.substring 0 i s
                          +:+ String.substring i (String.length s - i) s)).
      f_equal. apply IH. simpl in Hi. lia.
Qed.

Lemma endswith_split (s suffix : string) :
  Py.endswith s suffix = true → ∃ stem, s = stem +:+ suffix.
Proof.
  unfold Py.endswith. intros [Hle Heq]%andb_true_iff.
  apply Nat.leb_le in Hle. apply String.eqb_eq in Heq.
  exists (String.substring 0 (String.length s - String.length suffix) s).
  rewrite <- Heq at 2.
  rewrite (substring_split s (String.length s - String.length suffix)) at 1 by lia.
  do 2 f_equal. lia.
Qed.

(** A listed name that passes the [.wav] test, has no slash and does not
    begin with a dot is a stem followed by [.wav], and the stem is its
    base name. *)
Lemma listed_name_stem (name : string) :
  Py.endswith name ".wav" = true →
  Py.startswith name "." = false →
  "/"%char ∉ list_ascii_of_string name →
  name = (Py.splitext name).1 +:+ ".wav"
  ∧ "/"%char ∉ list_ascii_of_string (Py.splitext name).1.
Proof.
  intros [stem ->]%endswith_split Hdot Hslash.
  rewrite chars_app, not_elem_of_app in Hslash. destruct Hslash as [Hslash _].
  destruct stem as [|c stem]; [done|].
  assert (c ≠ "."%char) as Hc.
  { intros ->. simpl in Hdot. by rewrite startswith_empty in Hdot. }
  by rewrite splitext_wav.
Qed.

(** X9. Two source files do not write to one file.  Two different names
    of a listing that pass the [.wav] test and do not begin with a dot
    have different base names, and give different paths for one and the
    same speaker label, in per-speaker mode and, whatever the two counts,
    in per-segment mode. *)
Theorem distinct_sources_distinct_paths (out name1 name2 label : string) (n1 n2 : nat) :
  Py.endswith name1 ".wav" = true →
  Py.endswith name2 ".wav" = true →
  Py.startswith name1 "." = false →
  Py.startswith name2 "." = false →
  "/"%char ∉ list_ascii_of_string name1 →
  "/"%char ∉ list_ascii_of_string name2 →
  name1 ≠ name2 →
  (Py.splitext name1).1 ≠ (Py.splitext name2).1
  ∧ speaker_file out (Py.splitext name1).1 label
    ≠ speaker_file out (Py.splitext name2).1 label
  ∧ segment_file out (Py.splitext name1).1 label n1
    ≠ segment_file out (Py.splitext name2).1 label n2.
Proof.
  intros Hwav1 Hwav2 Hdot1 Hdot2 Hslash1 Hslash2 Hne.
  destruct (listed_name_stem name1 Hwav1 Hdot1 Hslash1) as [Hname1 Hbase1].
  destruct (listed_name_stem name2 Hwav2 Hdot2 Hslash2) as [Hname2 Hbase2].
  assert ((Py.splitext name1).1 ≠ (Py.splitext name2).1) as Hbases.
  { intros Heq. apply Hne. rewrite Hname1, Hname2. by rewrite Heq. }
  split; [done|]. by apply distinct_bases_distinct_paths.
Qed.

(** X10. The base name of a kept file.  A name [stem.wav] whose stem has
    no slash and does not begin with a dot passes the [.wav] test of both
    scripts, and the base name that goes into its output names is the
    stem. *)
Theorem kept_name_gives_its_stem (c : ascii) (stem : string) :
  c ≠ "."%char →
  "/"%char ∉ list_ascii_of_string (String c stem) →
  Py.endswith (String c stem +:+ ".wav") ".wav" = true
  ∧ (Py.splitext (String c stem +:+ ".wav")).1 = String c stem.
Proof.
  intros Hdot Hslash. split; [|by rewrite splitext_wav].
  unfold Py.endswith. rewrite string_length_app.
  replace (String.length (String c stem) + String.length ".wav" - String.length ".wav")
    with (String.length (String c stem)) by lia.
  rewrite substring_app_r.
  apply andb_true_iff. split; [apply Nat.leb_le; lia|done].
Qed.


(** ** Worked instances

    The theorems above at the reference instance: five milliseconds of
    audio [0a 0b 0c 0d 0e] from [call1.wav], speaker A on [0, 2) and [3, 5)
    milliseconds, speaker B on [2, 3). *)

(** The scenario of the specification, scaled to milliseconds: per-speaker
    mode gives A its two slices end to end and B its one, A first. *)
Example scenario_per_speaker :
  toy_group Toy.audio5 Toy.turns5 = Ok [("A", [x0a; x0b; x0d; x0e]); ("B", [x0c])].
Proof. reflexivity. Qed.

(** The same scenario in per-segment mode: three files, numbered 0, 1, 2 in
    emission order. *)
Example scenario_per_segment :
  let r := toy_export_segments "out" "call1" Toy.audio5 Toy.turns5 (Toy.world []) in
  r.1 = Ok 3
  ∧ files r.2 !! "out/call1_speaker_A_segment_0.wav" = Some (Toy.encode_wav [x0a; x0b])
  ∧ files r.2 !! "out/call1_speaker_B_segment_1.wav" = Some (Toy.encode_wav [x0c])
  ∧ files r.2 !! "out/call1_speaker_A_segment_2.wav" = Some (Toy.encode_wav [x0d; x0e])
  ∧ size (files r.2) = 3.
Proof. repeat split; reflexivity. Qed.

(** The whole per-speaker script on a folder that holds [call1.wav] and
    a file that is not a recording: one file per speaker is left, the bar
    is at one and the closing line is printed. *)
Example scenario_scd_script :
  let r := toy_scd [("in/call1.wav", Toy.turns5)] ["notes.txt"; "call1.wav"] "in" "out"
             (Toy.world [("in/notes.txt", [x00]);
                         ("in/call1.wav", Toy.encode_wav Toy.audio5)]) in
  r.1 = Ok tt
  ∧ files r.2 !! "out/call1_speaker_A.wav" = Some (Toy.encode_wav [x0a; x0b; x0d; x0e])
  ∧ files r.2 !! "out/call1_speaker_B.wav" = Some (Toy.encode_wav [x0c])
  ∧ size (files r.2) = 4
  ∧ pbar r.2 = 1
  ∧ stdout r.2 = ["Processing complete."].
Proof. repeat split; reflexivity. Qed.

(** The per-speaker script run twice over the same folders: the second
    run finds the files of the first and appends to them. *)
Example scenario_scd_script_twice :
  let known := [("in/call1.wav", Toy.turns5)] in
  let w := Toy.world [("in/call1.wav", Toy.encode_wav Toy.audio5)] in
  let r := toy_scd known ["call1.wav"] "in" "out"
             (toy_scd known ["call1.wav"] "in" "out" w).2 in
  r.1 = Ok tt
  ∧ files r.2 !! "out/call1_speaker_A.wav"
    = Some (Toy.encode_wav ([x0a; x0b; x0d; x0e] ++ [x0a; x0b; x0d; x0e]))
  ∧ files r.2 !! "out/call1_speaker_B.wav" = Some (Toy.encode_wav ([x0c] ++ [x0c])).
Proof. repeat split; reflexivity. Qed.

(** The whole per-segment script: the smaller file is processed first,
    each file counts its segments from zero. *)
Example scenario_extract_voices :
  let known := [("in/call1.wav", Toy.turns5);
                ("in/b.wav", [Toy.track 0 0.001 "A"])] in
  let r := toy_extract_voices known ["call1.wav"; "b.wav"] "in" "out"
             (Toy.world [("in/call1.wav", Toy.encode_wav Toy.audio5);
                         ("in/b.wav", Toy.encode_wav [x01])]) in
  r.1 = Ok tt
  ∧ files r.2 !! "out/b_speaker_A_segment_0.wav" = Some (Toy.encode_wav [x01])
  ∧ files r.2 !! "out/call1_speaker_A_segment_0.wav" = Some (Toy.encode_wav [x0a; x0b])
  ∧ files r.2 !! "out/call1_speaker_B_segment_1.wav" = Some (Toy.encode_wav [x0c])
  ∧ files r.2 !! "out/call1_speaker_A_segment_2.wav" = Some (Toy.encode_wav [x0d; x0e])
  ∧ size (files r.2) = 6
  ∧ pbar r.2 = 2
  ∧ stdout r.2 = ["Voice separation from audio files completed successfully."].
Proof. repeat split; reflexivity. Qed.

Lemma speaker_buffer_is_concatenation_witness :
  "A" ∈ speaker <$> Toy.turns5
  ∧ ∃ speaker_segments,
      toy_group Toy.audio5 Toy.turns5 = Ok speaker_segments
      ∧ Dict.getitem "A" speaker_segments = Some [x0a; x0b; x0d; x0e].
Proof.
  assert ("A" ∈ speaker <$> Toy.turns5) as Hin by (by left).
  split; [exact Hin|].
  destruct (speaker_buffer_is_concatenation Toy.fmul Toy.getslice
              Toy.audio5 Toy.turns5 "A" Hin) as (d & Hrun & Hget).
  exists d. split; [exact Hrun|]. rewrite Hget. reflexivity.
Defined.

Lemma merge_persist_appends_witness :
  Toy.writable (speaker_file "out" "call1" "A") = true
  ∧ (∀ audio, Toy.decode_wav (Toy.encode_wav audio) = Some audio)
  ∧ ∃ w', (toy_save_speaker "out" "call1" ("A", [x0a; x0b]) ;;
           toy_save_speaker "out" "call1" ("A", [x0d; x0e])) (Toy.world [])
          = (Ok tt, w')
      ∧ files w' !! "out/call1_speaker_A.wav"
        = Some (Toy.encode_wav [x0a; x0b; x0d; x0e]).
Proof.
  assert (∀ audio, Toy.decode_wav (Toy.encode_wav audio) = Some audio) as Hcodec
    by (intros audio; reflexivity).
  split; [reflexivity|]. split; [exact Hcodec|].
  destruct (merge_persist_appends Toy.encode_wav Toy.decode_wav Toy.writable
              "out" "call1" "A" eq_refl Hcodec) as (_ & _ & Htwice & _).
  apply (Htwice (Toy.world []) [x0a; x0b] [x0d; x0e]). reflexivity.
Defined.


(** A second run over an output folder that an earlier run (of other
    audio) has filled. *)
Lemma segment_export_overwrites_witness :
  (∀ n t, Toy.turns5 !! n = Some t →
     Toy.writable (segment_file "out" "call1" (speaker t) n) = true)
  ∧ ∃ w1 w2,
      toy_export_segments "out" "call1" Toy.audio5 Toy.turns5
        (Toy.world [("out/call1_speaker_A_segment_0.wav", Toy.encode_wav [x01; x02; x03])])
      = (Ok 3, w1)
      ∧ files w1 !! "out/call1_speaker_A_segment_0.wav" = Some (Toy.encode_wav [x0a; x0b])
      ∧ toy_export_segments "out" "call1" Toy.audio5 Toy.turns5 w1 = (Ok 3, w2)
      ∧ files w2 = files w1.
Proof.
  assert (∀ n t, Toy.turns5 !! n = Some t →
     Toy.writable (segment_file "out" "call1" (speaker t) n) = true) as Hw
    by (intros n t _; reflexivity).
  split; [exact Hw|].
  destruct (segment_export_overwrites Toy.fmul Toy.getslice Toy.encode_wav
              Toy.writable "out" "call1" Toy.audio5 Toy.turns5
              (Toy.world [("out/call1_speaker_A_segment_0.wav",
                           Toy.encode_wav [x01; x02; x03])]) Hw)
    as (_ & w1 & w2 & Hrun & Hnames & Hrerun & Hsame).
  exists w1, w2. split; [exact Hrun|].
  split; [exact (Hnames 0 _ eq_refl)|]. split; [exact Hrerun|exact Hsame].
Defined.

(** After a track in range: a track that ends two milliseconds after
    the audio does, followed by a track in range; and a track that starts
    ten milliseconds before the audio does. *)
Lemma out_of_range_slice_is_kept_or_ends_the_loop_witness :
  let before := [Toy.track 0 0.002 "A"] in
  let after := [Toy.track 0.002 0.003 "B"] in
  let late := Toy.track 0.004 0.007 "B" in
  let early := Toy.track (-0.010) 0.002 "B" in
  (∀ x, x ∈ before →
     Raising.slice_of Toy.fmul Toy.getitem Toy.audio5 x
     = Ok (slice_of Toy.fmul Toy.getslice Toy.audio5 x))
  ∧ (∀ n x, before !! n = Some x →
       Toy.writable (segment_file "out" "call1" (speaker x) n) = true)
  ∧ Toy.in_range Toy.audio5 late = false
  ∧ Raising.slice_of Toy.fmul Toy.getitem Toy.audio5 late = Ok [x0e]
  ∧ (∃ speaker_segments,
       Raising.group_by_speaker Toy.fmul Toy.getitem Toy.audio5 (before ++ late :: after)
       = Ok speaker_segments
       ∧ Dict.getitem "B" speaker_segments = Some [x0e; x0c])
  ∧ (∃ w',
       Raising.export_segments Toy.fmul Toy.getitem Toy.encode_wav Toy.writable
         "out" "call1" Toy.audio5 (before ++ late :: after) (Toy.world [])
       = (Ok 3, w')
       ∧ files w' !! "out/call1_speaker_B_segment_1.wav" = Some (Toy.encode_wav [x0e]))
  ∧ Toy.in_range Toy.audio5 early = false
  ∧ Raising.slice_of Toy.fmul Toy.getitem Toy.audio5 early = Raise TooManyMissingFrames
  ∧ Raising.group_by_speaker Toy.fmul Toy.getitem Toy.audio5 (before ++ early :: after)
    = Raise TooManyMissingFrames
  ∧ Raising.export_segments Toy.fmul Toy.getitem Toy.encode_wav Toy.writable
      "out" "call1" Toy.audio5 (before ++ early :: after) (Toy.world [])
    = (Raise TooManyMissingFrames,
       Toy.world [("out/call1_speaker_A_segment_0.wav", Toy.encode_wav [x0a; x0b])]).
Proof.
  intros before after late early.
  assert (∀ x, x ∈ before →
            Raising.slice_of Toy.fmul Toy.getitem Toy.audio5 x
            = Ok (slice_of Toy.fmul Toy.getslice Toy.audio5 x)) as Hbefore.
  { intros x Hx. apply list_elem_of_In in Hx. simpl in Hx.
    destruct Hx as [<-|[]]. reflexivity. }
  assert (∀ n x, before !! n = Some x →
            Toy.writable (segment_file "out" "call1" (speaker x) n) = true) as Hw
    by (intros n x _; reflexivity).
  split; [exact Hbefore|]. split; [exact Hw|].
  split; [reflexivity|]. split; [reflexivity|].
  destruct (out_of_range_slice_is_kept_or_ends_the_loop Toy.fmul Toy.getslice
              Toy.getitem Toy.encode_wav Toy.writable "out" "call1" Toy.audio5
              before after late (Toy.world []) Hbefore Hw) as [Hkept _].
  destruct Hkept as [(d & Hrun & Hget) (w' & Hexp & Hfile)].
  { reflexivity. }
  { intros x Hx. apply list_elem_of_In in Hx. simpl in Hx.
    destruct Hx as [<-|[]]. reflexivity. }
  { intros n x _. reflexivity. }
  split; [exists d; split; [exact Hrun|exact Hget]|].
  split; [exists w'; split; [exact Hexp|exact Hfile]|].
  split; [reflexivity|]. split; [reflexivity|].
  destruct (out_of_range_slice_is_kept_or_ends_the_loop Toy.fmul Toy.getslice
              Toy.getitem Toy.encode_wav Toy.writable "out" "call1" Toy.audio5
              before after early (Toy.world []) Hbefore Hw) as [_ Hraise].
  destruct (Hraise TooManyMissingFrames eq_refl) as [Hgroup Hexport].
  split; [exact Hgroup|]. rewrite Hexport. reflexivity.
Defined.

Lemma distinct_labels_distinct_paths_witness :
  "A/B" ≠ "A_B"
  ∧ speaker_file "out" "call1" "A/B" ≠ speaker_file "out" "call1" "A_B"
  ∧ segment_file "out" "call1" "A/B" 0 ≠ segment_file "out" "call1" "A_B" 0.
Proof.
  assert ("A/B" ≠ "A_B") as Hne by discriminate.
  split; [exact Hne|].
  exact (distinct_labels_distinct_paths "out" "call1" "A/B" "A_B" 0 0 Hne).
Defined.

(** Three speakers to save; the file that is there for the second one is
    not audio. *)
Lemma undecodable_file_stops_saving_witness :
  toy_save_speakers "out" "call1" [("A", [x0a])]
    (Toy.world [("out/call1_speaker_B.wav", [x00; x01])])
  = (Ok tt, Toy.world [("out/call1_speaker_A.wav", Toy.encode_wav [x0a]);
                       ("out/call1_speaker_B.wav", [x00; x01])])
  ∧ files (Toy.world [("out/call1_speaker_A.wav", Toy.encode_wav [x0a]);
                      ("out/call1_speaker_B.wav", [x00; x01])])
      !! speaker_file "out" "call1" "B" = Some [x00; x01]
  ∧ Toy.decode_wav [x00; x01] = None
  ∧ toy_save_speakers "out" "call1" ([("A", [x0a])] ++ ("B", [x0b]) :: [("C", [x0c])])
      (Toy.world [("out/call1_speaker_B.wav", [x00; x01])])
    = (Raise CouldntDecodeError,
       Toy.world [("out/call1_speaker_A.wav", Toy.encode_wav [x0a]);
                  ("out/call1_speaker_B.wav", [x00; x01])]).
Proof.
  assert (toy_save_speakers "out" "call1" [("A", [x0a])]
            (Toy.world [("out/call1_speaker_B.wav", [x00; x01])])
          = (Ok tt, Toy.world [("out/call1_speaker_A.wav", Toy.encode_wav [x0a]);
                               ("out/call1_speaker_B.wav", [x00; x01])])) as H1
    by reflexivity.
  assert (files (Toy.world [("out/call1_speaker_A.wav", Toy.encode_wav [x0a]);
                            ("out/call1_speaker_B.wav", [x00; x01])])
            !! speaker_file "out" "call1" "B" = Some [x00; x01]) as H2
    by reflexivity.
  split; [exact H1|]. split; [exact H2|]. split; [reflexivity|].
  exact (undecodable_file_stops_saving Toy.encode_wav Toy.decode_wav Toy.writable
           "out" "call1" "B" [("A", [x0a])] [("C", [x0c])] [x0b] [x00; x01]
           _ _ H1 H2 eq_refl).
Defined.

(** A file of another source in the output folder stays as it is. *)
Lemma saving_touches_only_speaker_paths_witness :
  toy_group Toy.audio5 Toy.turns5 = Ok [("A", [x0a; x0b; x0d; x0e]); ("B", [x0c])]
  ∧ files (toy_save_speakers "out" "call1" [("A", [x0a; x0b; x0d; x0e]); ("B", [x0c])]
             (Toy.world [("out/call2_speaker_A.wav", [x00])])).2
      !! "out/call2_speaker_A.wav"
    = Some [x00].
Proof.
  split; [reflexivity|].
  destruct (saving_touches_only_speaker_paths Toy.fmul Toy.getslice Toy.encode_wav
              Toy.decode_wav Toy.writable "out" "call1" Toy.audio5 Toy.turns5
              [("A", [x0a; x0b; x0d; x0e]); ("B", [x0c])] eq_refl) as [Hframe _].
  rewrite Hframe; [reflexivity|].
  intros label Hin. apply list_elem_of_In in Hin. simpl in Hin.
  destruct Hin as [<-|[<-|[<-|[]]]]; discriminate.
Defined.


(** ** Where the code departs from the specification *)

(** C3 does not hold of pairs: two different pairs of a base name and a
    label that give one and the same path. *)
Lemma speaker_file_collision :
  ("a_speaker_b", "c") ≠ ("a", "b_speaker_c")
  ∧ speaker_file "out" "a_speaker_b" "c" = speaker_file "out" "a" "b_speaker_c".
Proof. split; [discriminate|reflexivity]. Qed.

(** C4 does not hold: [call1.wav] has the speakers A and B, and the file
    that is there for A is not audio.  The pass ends with the decoder's
    exception; the file of A is as it was, and B, whose turn had not come,
    has no file. *)
Lemma undecodable_file_aborts_the_pass :
  let r := toy_merge_file [("in/call1.wav", Toy.turns5)] "in" "out" "call1.wav"
             (Toy.world [("in/call1.wav", Toy.encode_wav Toy.audio5);
                         ("out/call1_speaker_A.wav", [x00; x01])]) in
  r.1 = Raise CouldntDecodeError
  ∧ files r.2 !! "out/call1_speaker_A.wav" = Some [x00; x01]
  ∧ files r.2 !! "out/call1_speaker_B.wav" = None
  ∧ pbar r.2 = 0.
Proof. repeat split; reflexivity. Qed.

(** C5 does not hold.  In the first stream the second track ends two
    milliseconds after the audio does: the library cuts the end down,
    nothing is raised or reported, and the track is not skipped: B gets a
    buffer, the part of the slice that exists, where the stream without
    that track gives B nothing.  In the second stream the second track
    starts ten milliseconds before the audio does: the library raises an
    exception of its own, nothing catches or reports it, and the pass
    does not continue: per-speaker mode ends without a dictionary, and
    per-segment mode with the file of the first track and no file for the
    third, which is in range; the processing of the file in per-speaker
    mode ends with the exception, nothing written and the bar not
    moved. *)
Lemma out_of_range_track_is_not_skipped :
  Toy.in_range Toy.audio5 (Toy.track 0.004 0.007 "B") = false
  ∧ Raising.group_by_speaker Toy.fmul Toy.getitem Toy.audio5
      [Toy.track 0 0.002 "A"; Toy.track 0.004 0.007 "B"]
    = Ok [("A", [x0a; x0b]); ("B", [x0e])]
  ∧ Raising.group_by_speaker Toy.fmul Toy.getitem Toy.audio5
      (filter (λ t, Is_true (Toy.in_range Toy.audio5 t))
         [Toy.track 0 0.002 "A"; Toy.track 0.004 0.007 "B"])
    = Ok [("A", [x0a; x0b])]
  ∧ (Raising.export_segments Toy.fmul Toy.getitem Toy.encode_wav Toy.writable
       "out" "call1" Toy.audio5
       [Toy.track 0 0.002 "A"; Toy.track 0.004 0.007 "B"] (Toy.world [])).1
    = Ok 2
  ∧ Toy.in_range Toy.audio5 (Toy.track (-0.010) 0.002 "B") = false
  ∧ Raising.group_by_speaker Toy.fmul Toy.getitem Toy.audio5
      [Toy.track 0 0.002 "A"; Toy.track (-0.010) 0.002 "B"; Toy.track 0.002 0.003 "B"]
    = Raise TooManyMissingFrames
  ∧ Raising.export_segments Toy.fmul Toy.getitem Toy.encode_wav Toy.writable
      "out" "call1" Toy.audio5
      [Toy.track 0 0.002 "A"; Toy.track (-0.010) 0.002 "B"; Toy.track 0.002 0.003 "B"]
      (Toy.world [])
    = (Raise TooManyMissingFrames,
       Toy.world [("out/call1_speaker_A_segment_0.wav", Toy.encode_wav [x0a; x0b])])
  ∧ Raising.merge_file Toy.fmul Toy.getitem Toy.encode_wav Toy.decode_wav Toy.writable
      (Toy.pipeline
         [("in/call1.wav",
           [Toy.track 0 0.002 "A"; Toy.track (-0.010) 0.002 "B";
            Toy.track 0.002 0.003 "B"])])
      "in" "out" "call1.wav" (Toy.world [("in/call1.wav", Toy.encode_wav Toy.audio5)])
    = (Raise TooManyMissingFrames,
       Toy.world [("in/call1.wav", Toy.encode_wav Toy.audio5)]).
Proof. repeat split; reflexivity. Qed.


(** ** Worked instances of the further properties *)

(** Membership in the labels of the three turns, case by case. *)
Ltac each_label Hin :=
  apply list_elem_of_In in Hin; simpl in Hin;
  destruct Hin as [<-|[<-|[<-|[]]]].

(** Three recordings listed in an order that is not that of their sizes,
    two of them of one size, beside a file that is not a recording. *)
Lemma files_taken_smallest_first_witness :
  let known := [("in/call1.wav", Toy.turns5)] in
  let names := ["call1.wav"; "notes.txt"; "b.wav"; "a.wav"] in
  let w := Toy.world [("in/call1.wav", Toy.encode_wav Toy.audio5);
                      ("in/notes.txt", [x00]);
                      ("in/b.wav", Toy.encode_wav [x01]);
                      ("in/a.wav", Toy.encode_wav [x02])] in
  (∀ f, f ∈ filter (λ f, Is_true (Py.endswith f ".wav")) (Toy.listdir names "in" (files w)) →
     is_Some (files w !! Py.join "in" f))
  ∧ ∃ pairs : list (string * nat),
      pairs ≡ₚ [("call1.wav", 9); ("b.wav", 5); ("a.wav", 5)]
      ∧ StronglySorted (λ a b, (a.2 ≤ b.2)%nat) pairs
      ∧ filter (λ a, a.2 = 5) pairs = [("b.wav", 5); ("a.wav", 5)]
      ∧ toy_extract_voices known names "in" "out" w
        = (for_each pairs.*1
             (extract_file Toy.fmul Toy.getslice Toy.encode_wav Toy.decode_wav
                Toy.writable (Toy.pipeline known) "in" "out") ;;
           print "Voice separation from audio files completed successfully.")
            (set_pbar (λ _, 0) w).
Proof.
  intros known names w.
  assert (∀ f, f ∈ filter (λ f, Is_true (Py.endswith f ".wav"))
                     (Toy.listdir names "in" (files w)) →
            is_Some (files w !! Py.join "in" f)) as Hthere.
  { intros f Hf. apply list_elem_of_In in Hf. simpl in Hf.
    destruct Hf as [<-|[<-|[<-|[]]]]; vm_compute; by eexists. }
  split; [exact Hthere|].
  destruct (files_taken_smallest_first Toy.fmul Toy.getslice Toy.encode_wav
              Toy.decode_wav Toy.writable (Toy.pipeline known) (Toy.listdir names)
              "in" "out" w Hthere) as (pairs & Hperm & Hsorted & Hstable & Hrun).
  exists pairs. split; [exact Hperm|]. split; [exact Hsorted|].
  split; [exact (Hstable 5)|exact Hrun].
Defined.

(** [call1.wav] in per-speaker mode over an output folder that already
    holds a byte of audio for B. *)
Lemma merge_file_leaves_speaker_files_witness :
  Toy.pipeline [("in/call1.wav", Toy.turns5)] (Py.join "in" "call1.wav")
    (files (Toy.world [("in/call1.wav", Toy.encode_wav Toy.audio5);
                       ("out/call1_speaker_B.wav", Toy.encode_wav [x01])]))
  = Ok Toy.turns5
  ∧ files (Toy.world [("in/call1.wav", Toy.encode_wav Toy.audio5);
                      ("out/call1_speaker_B.wav", Toy.encode_wav [x01])])
      !! Py.join "in" "call1.wav" = Some (Toy.encode_wav Toy.audio5)
  ∧ Toy.decode_wav (Toy.encode_wav Toy.audio5) = Some Toy.audio5
  ∧ (∀ label, label ∈ speaker <$> Toy.turns5 →
       Toy.writable (speaker_file "out" (Py.splitext "call1.wav").1 label) = true)
  ∧ (∀ label old, label ∈ speaker <$> Toy.turns5 →
       files (Toy.world [("in/call1.wav", Toy.encode_wav Toy.audio5);
                         ("out/call1_speaker_B.wav", Toy.encode_wav [x01])])
         !! speaker_file "out" (Py.splitext "call1.wav").1 label = Some old →
       is_Some (Toy.decode_wav old))
  ∧ ∃ w', toy_merge_file [("in/call1.wav", Toy.turns5)] "in" "out" "call1.wav"
            (Toy.world [("in/call1.wav", Toy.encode_wav Toy.audio5);
                        ("out/call1_speaker_B.wav", Toy.encode_wav [x01])])
          = (Ok tt, w')
      ∧ pbar w' = 1
      ∧ files w' !! "out/call1_speaker_A.wav" = Some (Toy.encode_wav [x0a; x0b; x0d; x0e])
      ∧ files w' !! "out/call1_speaker_B.wav" = Some (Toy.encode_wav ([x01] ++ [x0c])).
Proof.
  assert (∀ label, label ∈ speaker <$> Toy.turns5 →
       Toy.writable (speaker_file "out" (Py.splitext "call1.wav").1 label) = true) as Hw
    by (intros label _; reflexivity).
  assert (∀ label old, label ∈ speaker <$> Toy.turns5 →
       files (Toy.world [("in/call1.wav", Toy.encode_wav Toy.audio5);
                         ("out/call1_speaker_B.wav", Toy.encode_wav [x01])])
         !! speaker_file "out" (Py.splitext "call1.wav").1 label = Some old →
       is_Some (Toy.decode_wav old)) as Hdec.
  { intros label old Hin. each_label Hin; vm_compute; intros [= <-]; by eexists. }
  split; [reflexivity|]. split; [reflexivity|]. split; [reflexivity|].
  split; [exact Hw|]. split; [exact Hdec|].
  destruct (merge_file_leaves_speaker_files Toy.fmul Toy.getslice Toy.encode_wav
              Toy.decode_wav Toy.writable (Toy.pipeline [("in/call1.wav", Toy.turns5)])
              "in" "out" "call1.wav" Toy.turns5 Toy.audio5 (Toy.encode_wav Toy.audio5)
              (Toy.world [("in/call1.wav", Toy.encode_wav Toy.audio5);
                          ("out/call1_speaker_B.wav", Toy.encode_wav [x01])])
              eq_refl eq_refl eq_refl Hw Hdec)
    as (w' & Hrun & Hbar & Hnew & Hold & _).
  exists w'. split; [exact Hrun|]. split; [exact Hbar|]. split.
  - apply (Hnew "A"); [by left|reflexivity].
  - apply (Hold "B" (Toy.encode_wav [x01]) [x01]); [by right; left|reflexivity..].
Defined.

Lemma merge_file_adds_one_file_per_speaker_witness :
  Toy.pipeline [("in/call1.wav", Toy.turns5)] (Py.join "in" "call1.wav")
    (files (Toy.world [("in/call1.wav", Toy.encode_wav Toy.audio5)])) = Ok Toy.turns5
  ∧ files (Toy.world [("in/call1.wav", Toy.encode_wav Toy.audio5)])
      !! Py.join "in" "call1.wav" = Some (Toy.encode_wav Toy.audio5)
  ∧ Toy.decode_wav (Toy.encode_wav Toy.audio5) = Some Toy.audio5
  ∧ (∀ label, label ∈ speaker <$> Toy.turns5 →
       Toy.writable (speaker_file "out" (Py.splitext "call1.wav").1 label) = true)
  ∧ (∀ label, label ∈ speaker <$> Toy.turns5 →
       files (Toy.world [("in/call1.wav", Toy.encode_wav Toy.audio5)])
         !! speaker_file "out" (Py.splitext "call1.wav").1 label = None)
  ∧ ∃ w', toy_merge_file [("in/call1.wav", Toy.turns5)] "in" "out" "call1.wav"
            (Toy.world [("in/call1.wav", Toy.encode_wav Toy.audio5)]) = (Ok tt, w')
      ∧ size (files w') = 1 + 2.
Proof.
  assert (∀ label, label ∈ speaker <$> Toy.turns5 →
       Toy.writable (speaker_file "out" (Py.splitext "call1.wav").1 label) = true) as Hw
    by (intros label _; reflexivity).
  assert (∀ label, label ∈ speaker <$> Toy.turns5 →
       files (Toy.world [("in/call1.wav", Toy.encode_wav Toy.audio5)])
         !! speaker_file "out" (Py.splitext "call1.wav").1 label = None) as Hfresh.
  { intros label Hin. each_label Hin; reflexivity. }
  split; [reflexivity|]. split; [reflexivity|]. split; [reflexivity|].
  split; [exact Hw|]. split; [exact Hfresh|].
  exact (merge_file_adds_one_file_per_speaker Toy.fmul Toy.getslice Toy.encode_wav
           Toy.decode_wav Toy.writable (Toy.pipeline [("in/call1.wav", Toy.turns5)])
           "in" "out" "call1.wav" Toy.turns5 Toy.audio5 (Toy.encode_wav Toy.audio5)
           (Toy.world [("in/call1.wav", Toy.encode_wav Toy.audio5)])
           eq_refl eq_refl eq_refl Hw Hfresh).
Defined.

Lemma extract_file_adds_one_file_per_track_witness :
  Toy.pipeline [("in/call1.wav", Toy.turns5)] (Py.join "in" "call1.wav")
    (files (Toy.world [("in/call1.wav", Toy.encode_wav Toy.audio5)])) = Ok Toy.turns5
  ∧ files (Toy.world [("in/call1.wav", Toy.encode_wav Toy.audio5)])
      !! Py.join "in" "call1.wav" = Some (Toy.encode_wav Toy.audio5)
  ∧ Toy.decode_wav (Toy.encode_wav Toy.audio5) = Some Toy.audio5
  ∧ (∀ n t, Toy.turns5 !! n = Some t →
       Toy.writable (segment_file "out" (Py.splitext "call1.wav").1 (speaker t) n) = true)
  ∧ (∀ n t, Toy.turns5 !! n = Some t →
       files (Toy.world [("in/call1.wav", Toy.encode_wav Toy.audio5)])
         !! segment_file "out" (Py.splitext "call1.wav").1 (speaker t) n = None)
  ∧ ∃ w', extract_file Toy.fmul Toy.getslice Toy.encode_wav Toy.decode_wav Toy.writable
            (Toy.pipeline [("in/call1.wav", Toy.turns5)]) "in" "out" "call1.wav"
            (Toy.world [("in/call1.wav", Toy.encode_wav Toy.audio5)]) = (Ok tt, w')
      ∧ size (files w') = 1 + 3
      ∧ pbar w' = 1.
Proof.
  assert (∀ n t, Toy.turns5 !! n = Some t →
       Toy.writable (segment_file "out" (Py.splitext "call1.wav").1 (speaker t) n) = true)
    as Hw by (intros n t _; reflexivity).
  assert (∀ n t, Toy.turns5 !! n = Some t →
       files (Toy.world [("in/call1.wav", Toy.encode_wav Toy.audio5)])
         !! segment_file "out" (Py.splitext "call1.wav").1 (speaker t) n = None) as Hfresh.
  { intros [|[|[|n]]] t Ht; [injection Ht as <-; reflexivity..|discriminate]. }
  split; [reflexivity|]. split; [reflexivity|]. split; [reflexivity|].
  split; [exact Hw|]. split; [exact Hfresh|].
  exact (extract_file_adds_one_file_per_track Toy.fmul Toy.getslice Toy.encode_wav
           Toy.decode_wav Toy.writable (Toy.pipeline [("in/call1.wav", Toy.turns5)])
           "in" "out" "call1.wav" Toy.turns5 Toy.audio5 (Toy.encode_wav Toy.audio5)
           (Toy.world [("in/call1.wav", Toy.encode_wav Toy.audio5)])
           eq_refl eq_refl eq_refl Hw Hfresh).
Defined.

Lemma second_merge_pass_appends_again_witness :
  toy_group Toy.audio5 Toy.turns5 = Ok [("A", [x0a; x0b; x0d; x0e]); ("B", [x0c])]
  ∧ (∀ a, Toy.decode_wav (Toy.encode_wav a) = Some a)
  ∧ (∀ label, label ∈ speaker <$> Toy.turns5 →
       Toy.writable (speaker_file "out" "call1" label) = true)
  ∧ (∀ label, label ∈ speaker <$> Toy.turns5 →
       files (Toy.world []) !! speaker_file "out" "call1" label = None)
  ∧ ∃ w1 w2,
      toy_save_speakers "out" "call1" [("A", [x0a; x0b; x0d; x0e]); ("B", [x0c])]
        (Toy.world []) = (Ok tt, w1)
      ∧ toy_save_speakers "out" "call1" [("A", [x0a; x0b; x0d; x0e]); ("B", [x0c])] w1
        = (Ok tt, w2)
      ∧ files w2 !! "out/call1_speaker_A.wav"
        = Some (Toy.encode_wav ([x0a; x0b; x0d; x0e] ++ [x0a; x0b; x0d; x0e])).
Proof.
  assert (∀ a, Toy.decode_wav (Toy.encode_wav a) = Some a) as Hcodec
    by (intros a; reflexivity).
  assert (∀ label, label ∈ speaker <$> Toy.turns5 →
       Toy.writable (speaker_file "out" "call1" label) = true) as Hw
    by (intros label _; reflexivity).
  assert (∀ label, label ∈ speaker <$> Toy.turns5 →
       files (Toy.world []) !! speaker_file "out" "call1" label = None) as Hfresh
    by (intros label _; reflexivity).
  split; [reflexivity|]. split; [exact Hcodec|]. split; [exact Hw|].
  split; [exact Hfresh|].
  destruct (second_merge_pass_appends_again Toy.fmul Toy.getslice Toy.encode_wav
              Toy.decode_wav Toy.writable "out" "call1" Toy.audio5 Toy.turns5
              [("A", [x0a; x0b; x0d; x0e]); ("B", [x0c])] (Toy.world [])
              eq_refl Hcodec Hw Hfresh) as (w1 & w2 & Hrun1 & Hrun2 & Hfiles).
  exists w1, w2. split; [exact Hrun1|]. split; [exact Hrun2|].
  destruct (Hfiles "A") as [_ Htwice]; [by left|]. exact Htwice.
Defined.

Lemma unreadable_input_changes_nothing_witness :
  (Toy.pipeline [("in/call1.wav", Toy.turns5)] (Py.join "in" "bad.wav")
     (files (Toy.world [("in/bad.wav", [x00])])) = Raise PipelineError
   ∨ (∃ tracks, Toy.pipeline [("in/call1.wav", Toy.turns5)] (Py.join "in" "bad.wav")
                  (files (Toy.world [("in/bad.wav", [x00])])) = Ok tracks
        ∧ files (Toy.world [("in/bad.wav", [x00])]) !! Py.join "in" "bad.wav" = None
        ∧ PipelineError = FileNotFoundError)
   ∨ (∃ tracks raw, Toy.pipeline [("in/call1.wav", Toy.turns5)] (Py.join "in" "bad.wav")
                      (files (Toy.world [("in/bad.wav", [x00])])) = Ok tracks
        ∧ files (Toy.world [("in/bad.wav", [x00])]) !! Py.join "in" "bad.wav" = Some raw
        ∧ Toy.decode_wav raw = None
        ∧ PipelineError = CouldntDecodeError))
  ∧ toy_merge_file [("in/call1.wav", Toy.turns5)] "in" "out" "bad.wav"
      (Toy.world [("in/bad.wav", [x00])])
    = (Raise PipelineError, Toy.world [("in/bad.wav", [x00])])
  ∧ extract_file Toy.fmul Toy.getslice Toy.encode_wav Toy.decode_wav Toy.writable
      (Toy.pipeline [("in/call1.wav", Toy.turns5)]) "in" "out" "bad.wav"
      (Toy.world [("in/bad.wav", [x00])])
    = (Raise PipelineError, Toy.world [("in/bad.wav", [x00])]).
Proof.
  split; [by left|].
  apply (unreadable_input_changes_nothing Toy.fmul Toy.getslice Toy.encode_wav
           Toy.decode_wav Toy.writable (Toy.pipeline [("in/call1.wav", Toy.turns5)])).
  by left.
Defined.

Lemma silent_file_leaves_no_output_witness :
  Toy.pipeline [("in/quiet.wav", [])] (Py.join "in" "quiet.wav")
    (files (Toy.world [("in/quiet.wav", Toy.encode_wav Toy.audio5)])) = Ok []
  ∧ files (Toy.world [("in/quiet.wav", Toy.encode_wav Toy.audio5)])
      !! Py.join "in" "quiet.wav" = Some (Toy.encode_wav Toy.audio5)
  ∧ Toy.decode_wav (Toy.encode_wav Toy.audio5) = Some Toy.audio5
  ∧ toy_merge_file [("in/quiet.wav", [])] "in" "out" "quiet.wav"
      (Toy.world [("in/quiet.wav", Toy.encode_wav Toy.audio5)])
    = (Ok tt, set_pbar (λ k, k + 1)
                (Toy.world [("in/quiet.wav", Toy.encode_wav Toy.audio5)]))
  ∧ extract_file Toy.fmul Toy.getslice Toy.encode_wav Toy.decode_wav Toy.writable
      (Toy.pipeline [("in/quiet.wav", [])]) "in" "out" "quiet.wav"
      (Toy.world [("in/quiet.wav", Toy.encode_wav Toy.audio5)])
    = (Ok tt, set_pbar (λ k, k + 1)
                (Toy.world [("in/quiet.wav", Toy.encode_wav Toy.audio5)])).
Proof.
  split; [reflexivity|]. split; [reflexivity|]. split; [reflexivity|].
  exact (silent_file_leaves_no_output Toy.fmul Toy.getslice Toy.encode_wav
           Toy.decode_wav Toy.writable (Toy.pipeline [("in/quiet.wav", [])])
           "in" "out" "quiet.wav" Toy.audio5 (Toy.encode_wav Toy.audio5)
           (Toy.world [("in/quiet.wav", Toy.encode_wav Toy.audio5)])
           eq_refl eq_refl eq_refl).
Defined.

(** [call1.wav] and [call2.wav], both with a speaker A. *)
Lemma distinct_sources_distinct_paths_witness :
  Py.endswith "call1.wav" ".wav" = true
  ∧ Py.endswith "call2.wav" ".wav" = true
  ∧ Py.startswith "call1.wav" "." = false
  ∧ Py.startswith "call2.wav" "." = false
  ∧ ("/"%char ∉ list_ascii_of_string "call1.wav")
  ∧ ("/"%char ∉ list_ascii_of_string "call2.wav")
  ∧ "call1.wav" ≠ "call2.wav"
  ∧ (Py.splitext "call1.wav").1 ≠ (Py.splitext "call2.wav").1
  ∧ speaker_file "out" (Py.splitext "call1.wav").1 "A"
    ≠ speaker_file "out" (Py.splitext "call2.wav").1 "A"
  ∧ segment_file "out" (Py.splitext "call1.wav").1 "A" 0
    ≠ segment_file "out" (Py.splitext "call2.wav").1 "A" 0.
Proof.
  assert (∀ s, bool_decide ("/"%char ∉ list_ascii_of_string s) = true →
               "/"%char ∉ list_ascii_of_string s) as Hno.
  { intros s H. by apply bool_decide_eq_true in H. }
  assert ("call1.wav" ≠ "call2.wav") as Hne by discriminate.
  split; [reflexivity|]. split; [reflexivity|].
  split; [reflexivity|]. split; [reflexivity|].
  split; [by apply Hno|]. split; [by apply Hno|]. split; [exact Hne|].
  apply distinct_sources_distinct_paths;
    [reflexivity|reflexivity|reflexivity|reflexivity|by apply Hno|by apply Hno|exact Hne].
Defined.

(** Why the names must not begin with a dot: [.wav] and [.wav.wav] both
    pass the [.wav] test, and both have the base name [.wav]. *)
Example dot_names_share_a_base :
  Py.endswith ".wav" ".wav" = true
  ∧ Py.endswith ".wav.wav" ".wav" = true
  ∧ (Py.splitext ".wav").1 = (Py.splitext ".wav.wav").1
  ∧ speaker_file "out" (Py.splitext ".wav").1 "A"
    = speaker_file "out" (Py.splitext ".wav.wav").1 "A".
Proof. repeat split; reflexivity. Qed.

Lemma kept_name_gives_its_stem_witness :
  "c"%char ≠ "."%char
  ∧ ("/"%char ∉ list_ascii_of_string "call1")
  ∧ Py.endswith "call1.wav" ".wav" = true
  ∧ (Py.splitext "call1.wav").1 = "call1".
Proof.
  assert ("c"%char ≠ "."%char) as Hdot by discriminate.
  assert ("/"%char ∉ list_ascii_of_string "call1") as Hslash.
  { apply (bool_decide_eq_true _). reflexivity. }
  split; [exact Hdot|]. split; [exact Hslash|].
  exact (kept_name_gives_its_stem "c" "all1" Hdot Hslash).
Defined.

(** The file of the second of three segments is read-only. *)
Lemma unwritable_segment_path_stops_export_witness :
  (∀ n x, [Toy.track 0 0.002 "A"] !! n = Some x →
     negb (String.eqb (segment_file "out" "call1" (speaker x) n)
             "out/call1_speaker_B_segment_1.wav") = true)
  ∧ negb (String.eqb
            (segment_file "out" "call1" (speaker (Toy.track 0.002 0.003 "B"))
               (length [Toy.track 0 0.002 "A"]))
            "out/call1_speaker_B_segment_1.wav") = false
  ∧ export_segments Toy.fmul Toy.getslice Toy.encode_wav
      (λ path, negb (String.eqb path "out/call1_speaker_B_segment_1.wav"))
      "out" "call1" Toy.audio5
      ([Toy.track 0 0.002 "A"] ++ Toy.track 0.002 0.003 "B"
         :: [Toy.track 0.003 0.005 "A"]) (Toy.world [])
    = (Raise OSError,
       Toy.world [("out/call1_speaker_A_segment_0.wav", Toy.encode_wav [x0a; x0b])]).
Proof.
  assert (∀ n x, [Toy.track 0 0.002 "A"] !! n = Some x →
     negb (String.eqb (segment_file "out" "call1" (speaker x) n)
             "out/call1_speaker_B_segment_1.wav") = true) as Hbefore.
  { intros [|n] x H; [injection H as <-; reflexivity|discriminate]. }
  split; [exact Hbefore|]. split; [reflexivity|].
  rewrite (unwritable_segment_path_stops_export Toy.fmul Toy.getslice Toy.encode_wav
             (λ path, negb (String.eqb path "out/call1_speaker_B_segment_1.wav"))
             "out" "call1" Toy.audio5 [Toy.track 0 0.002 "A"]
             [Toy.track 0.003 0.005 "A"] (Toy.track 0.002 0.003 "B") (Toy.world [])
             Hbefore eq_refl).
  reflexivity.
Defined.

(** The file of the second of three speakers is read-only. *)
Lemma unwritable_speaker_path_stops_saving_witness :
  save_speakers Toy.encode_wav Toy.decode_wav
    (λ path, negb (String.eqb path "out/call1_speaker_B.wav"))
    "out" "call1" [("A", [x0a])] (Toy.world [])
  = (Ok tt, Toy.world [("out/call1_speaker_A.wav", Toy.encode_wav [x0a])])
  ∧ negb (String.eqb (speaker_file "out" "call1" "B") "out/call1_speaker_B.wav") = false
  ∧ (∀ raw, files (Toy.world [("out/call1_speaker_A.wav", Toy.encode_wav [x0a])])
              !! speaker_file "out" "call1" "B" = Some raw →
            is_Some (Toy.decode_wav raw))
  ∧ save_speakers Toy.encode_wav Toy.decode_wav
      (λ path, negb (String.eqb path "out/call1_speaker_B.wav"))
      "out" "call1" ([("A", [x0a])] ++ ("B", [x0b]) :: [("C", [x0c])]) (Toy.world [])
    = (Raise OSError, Toy.world [("out/call1_speaker_A.wav", Toy.encode_wav [x0a])]).
Proof.
  assert (∀ raw, files (Toy.world [("out/call1_speaker_A.wav", Toy.encode_wav [x0a])])
              !! speaker_file "out" "call1" "B" = Some raw →
            is_Some (Toy.decode_wav raw)) as Hdec.
  { intros raw H. vm_compute in H. discriminate. }
  split; [reflexivity|]. split; [reflexivity|]. split; [exact Hdec|].
  exact (unwritable_speaker_path_stops_saving Toy.encode_wav Toy.decode_wav
           (λ path, negb (String.eqb path "out/call1_speaker_B.wav"))
           "out" "call1" "B" [("A", [x0a])] [("C", [x0c])] [x0b]
           (Toy.world [])
           (Toy.world [("out/call1_speaker_A.wav", Toy.encode_wav [x0a])])
           eq_refl eq_refl Hdec).
Defined.

